(** * Crypto sentiment analyzer: the collect / score / align pipeline of app.py

    A shallow embedding of [fetch_reddit_data], [analyze_sentiments],
    [get_price_df], [merge_df] and the guarded pipeline of the [if run:] block,
    with the properties the specification states about them.

    Conventions of the embedding:
    - Python values that come out of JSON are [json] values; Python exceptions
      are values of [exn], and a computation that may raise returns a [result].
    - Python floats are Rocq's binary64 floats; a missing value in a float
      column of a DataFrame is [nan], as in pandas.
    - A [Timestamp] is an instant, counted in nanoseconds since the epoch.
    - DataFrame objects live in a heap and are referred to by address; the
      requests sent to Pushshift and the downloads asked of yfinance are
      recorded in two logs.  Together they form the [world] that the [Py]
      monad threads.
    - The libraries the program calls (requests, pandas, TextBlob, yfinance)
      are interfaces: type classes whose laws are what the libraries promise.
      The sort behind [sort_values], numpy's quicksort, is also modelled in
      full, for what it does with rows of equal dates. *)

From Stdlib Require Import ZArith List Floats Sorting.Sorted Sorting.Permutation Lia.
From stdpp Require Import base tactics option list strings gmap.

Local Open Scope Z_scope.

(** ** Python values, exceptions and results *)

Module Python.

(** The exceptions the modelled code can raise. [BadReference] is not a Python
    exception: it is what the model answers when an address holds no DataFrame
    of the expected kind, which a Python reference never does. *)
Inductive exn : Type :=
  | HTTPError (status : Z)
  | RequestException (what : string)
  | JSONDecodeError
  | AttributeError
  | TypeError
  | KeyError (key : string)
  | ValueError (msg : string)
  | OutOfBoundsDatetime
  | LibraryError (what : string)
  | BadReference.

Inductive result (A : Type) : Type :=
  | Ok (a : A)
  | Raise (e : exn).
Arguments Ok {A} a.
Arguments Raise {A} e.

#[global] Instance result_ret : MRet result := fun A a => Ok a.
#[global] Instance result_bind : MBind result := fun A B f m =>
  match m with
  | Ok a => f a
  | Raise e => Raise e
  end.
#[global] Instance result_fmap : FMap result := fun A B f m =>
  match m with
  | Ok a => Ok (f a)
  | Raise e => Raise e
  end.

(** What [json.loads] produces: [None], [bool], [int], [float], [str], [list]
    and [dict] (a dict as its items, looked up from the front). *)
#[warnings="-register-all"]
Inductive json : Type :=
  | JNull
  | JBool (b : bool)
  | JInt (n : Z)
  | JFloat (f : float)
  | JStr (s : string)
  | JArr (items : list json)
  | JObj (fields : list (string * json)).

(** Python's truth value testing, as [or] applies it. *)
Definition truthy (v : json) : bool :=
  match v with
  | JNull => false
  | JBool b => b
  | JInt n => negb (n =? 0)
  | JFloat f => negb (PrimFloat.eqb f 0%float)
  | JStr s => negb (String.eqb s "")
  | JArr items => match items with [] => false | _ => true end
  | JObj fields => match fields with [] => false | _ => true end
  end.

(** [x or y] *)
Definition py_or (x y : json) : json := if truthy x then x else y.

Fixpoint dict_get (fields : list (string * json)) (k : string) : option json :=
  match fields with
  | [] => None
  | (k', v) :: rest => if String.eqb k' k then Some v else dict_get rest k
  end.

(** [item.get(k, default)]: only a dict has the method. *)
Definition py_get (item : json) (k : string) (dflt : json) : result json :=
  match item with
  | JObj fields => Ok (default dflt (dict_get fields k))
  | _ => Raise AttributeError
  end.

(** [x + s] where [s] is a [str]: defined only when [x] is a [str] too. *)
Definition add_str_r (x : json) (s : string) : result string :=
  match x with
  | JStr a => Ok (a +:+ s)
  | _ => Raise TypeError
  end.

(** [s + y] where [s] is a [str]. *)
Definition add_str_l (s : string) (y : json) : result string :=
  match y with
  | JStr b => Ok (s +:+ b)
  | _ => Raise TypeError
  end.

(** The values a [for] loop draws from [v]: the elements of a list, the keys
    of a dict, the characters of a string; anything else is not iterable. *)
Definition py_iter (v : json) : result (list json) :=
  match v with
  | JArr items => Ok items
  | JObj fields => Ok (map (fun kv => JStr (fst kv)) fields)
  | JStr s => Ok (map (fun c => JStr (String c EmptyString)) (String.list_ascii_of_string s))
  | _ => Raise TypeError
  end.

End Python.

(** ** pandas: frames, sorting and the as-of join *)

Module Pandas.
Import Python.

(** An instant, in nanoseconds since the epoch (what a datetime64 column holds). *)
Definition Timestamp : Type := Z.

(** A DataFrame: its column labels and its rows in positional order.  The
    index labels are not carried: the program only ever drops them. *)
Record DataFrame (A : Type) : Type := mkDataFrame {
  columns : list string;
  rows : list A
}.
Arguments mkDataFrame {A} columns rows.
Arguments columns {A} d.
Arguments rows {A} d.

Definition has_column {A} (c : string) (df : DataFrame A) : bool :=
  existsb (String.eqb c) (columns df).

(** Rows in non-decreasing order of their key. *)
Definition sorted_by {A} (key : A -> Timestamp) (l : list A) : Prop :=
  StronglySorted (fun x y => key x <= key y) l.

(** [sort_values] with its default [kind="quicksort"]: a sorted rearrangement
    of the rows.  pandas documents only [mergesort] and [stable] as keeping
    rows of equal keys in their order, so the interface says nothing of it. *)
Class Sorter : Type := {
  sort_rows : forall A : Type, (A -> Timestamp) -> list A -> list A;
  sort_rows_perm : forall A (key : A -> Timestamp) l, Permutation (sort_rows A key l) l;
  sort_rows_sorted : forall A (key : A -> Timestamp) l, sorted_by key (sort_rows A key l)
}.
Arguments sort_rows {_} {A} key l.

(** A sorter that hands an already sorted frame back as it is, as any sort
    that keeps rows with equal keys in their order does.  The default kind
    does not promise it, so what rests on it says so. *)
Class KeepsSorted (srt : Sorter) : Prop :=
  keeps_sorted : forall A (key : A -> Timestamp) l, sorted_by key l -> sort_rows key l = l.

(** Insertion sort, the order-preserving instance: a row goes in front of the
    first row whose key is not smaller. *)
Fixpoint insert_row {A} (key : A -> Timestamp) (x : A) (l : list A) : list A :=
  match l with
  | [] => [x]
  | y :: rest => if key x <=? key y then x :: y :: rest else y :: insert_row key x rest
  end.

Fixpoint insertion_sort {A} (key : A -> Timestamp) (l : list A) : list A :=
  match l with
  | [] => []
  | x :: rest => insert_row key x (insertion_sort key rest)
  end.

(** [Index(values).is_monotonic_increasing] *)
Fixpoint is_monotonic_increasing {A} (key : A -> Timestamp) (l : list A) : bool :=
  match l with
  | [] => true
  | x :: rest =>
      match rest with
      | [] => true
      | y :: _ => (key x <=? key y) && is_monotonic_increasing key rest
      end
  end.

(** [df.sort_values("date")]: a new frame, or [KeyError] without the column. *)
Definition sort_values_date {srt : Sorter} {A} (key : A -> Timestamp) (df : DataFrame A)
  : result (DataFrame A) :=
  if has_column "date" df
  then Ok (mkDataFrame (columns df) (sort_rows key (rows df)))
  else Raise (KeyError "date").

(** [df.reset_index(drop=True)]: a new frame with the same rows in the same
    order; only the index labels, which the model leaves out, are renumbered. *)
Definition reset_index_drop {A} (df : DataFrame A) : DataFrame A :=
  mkDataFrame (columns df) (rows df).

(** The backward as-of join of pandas ([asof_join_backward]): one cursor into
    the right rows, advanced while the next right key is still at or before the
    current left key; the row the cursor passed last is the match. *)
Section AsOf.
Context {L R M : Type}.
Context (lkey : L -> Timestamp) (rkey : R -> Timestamp) (join : L -> option R -> M).

Fixpoint advance (t : Timestamp) (cur : option R) (right : list R) : option R * list R :=
  match right with
  | [] => (cur, [])
  | p :: rest => if rkey p <=? t then advance t (Some p) rest else (cur, right)
  end.

Fixpoint asof_backward (left : list L) (cur : option R) (right : list R) : list M :=
  match left with
  | [] => []
  | s :: rest =>
      let '(cur', right') := advance (lkey s) cur right in
      join s cur' :: asof_backward rest cur' right'
  end.

(** [pd.merge_asof(left, right, on=..., direction="backward")] on the rows:
    both key columns have to be sorted already. *)
Definition merge_asof_rows (left : list L) (right : list R) : result (list M) :=
  if negb (is_monotonic_increasing lkey left) then Raise (ValueError "left keys must be sorted")
  else if negb (is_monotonic_increasing rkey right) then Raise (ValueError "right keys must be sorted")
  else Ok (asof_backward left None right).

(** The match of one instant, looked up from the start of the right rows. *)
Definition asof_lookup (t : Timestamp) (right : list R) : option R :=
  fst (advance t None right).

End AsOf.

End Pandas.

(** ** numpy's quicksort

    [sort_values] sorts by [argsort] of the key column, and with no [kind]
    given numpy sorts the positions with its quicksort ([aquicksort] of
    npysort/quicksort.cpp): an introsort on the array of positions, compared by
    their keys.  Sorting the positions and taking the rows in that order is
    sorting the rows, so the model moves the rows themselves. *)

Module Numpy.
Import Pandas.

Section Quicksort.
Context {A : Type} (key : A -> Timestamp).

(** A segment from [pl] to [pr] is partitioned while [pr - pl] is greater. *)
Definition SMALL_QUICKSORT : nat := 16.

(** [INTP_SWAP]: the rows at two positions change places. *)
Definition swap (i j : nat) (a : list A) : list A :=
  match a !! i, a !! j with
  | Some x, Some y => <[j := x]> (<[i := y]> a)
  | _, _ => a
  end.

(** [if (less(v[*pi], v[*pj])) INTP_SWAP(...)]: they change places when the
    key of the first is less than the key of the second. *)
Definition swap_if_less (i j : nat) (a : list A) : list A :=
  match a !! i, a !! j with
  | Some x, Some y => if key x <? key y then swap i j a else a
  | _, _ => a
  end.

(** [do ++pi; while (less(v[*pi], vp))], run over the rows after [pi]: the
    position of the first of them whose key is not less than the pivot's. *)
Fixpoint scan_up (vp : Timestamp) (rest : list A) (pi : nat) : nat :=
  match rest with
  | [] => pi
  | x :: rest' => if key x <? vp then scan_up vp rest' (S pi) else pi
  end.

(** [do --pj; while (less(vp, v[*pj]))], run from [pj] down: the position of
    the first row below [pj] whose key is not greater than the pivot's. *)
Fixpoint scan_down (vp : Timestamp) (a : list A) (pj : nat) : nat :=
  match pj with
  | O => O
  | S k =>
      match a !! k with
      | Some x => if vp <? key x then scan_down vp a k else k
      | None => k
      end
  end.

(** The loop of the partition: the two scans, and an exchange of the rows
    they stop at, until the scans meet. *)
Fixpoint partition_loop (vp : Timestamp) (fuel : nat) (a : list A) (pi pj : nat)
  : list A * nat :=
  let pi' := scan_up vp (drop (S pi) a) (S pi) in
  let pj' := scan_down vp a pj in
  match fuel with
  | O => (a, pi')
  | S fuel' =>
      if (pj' <=? pi')%nat then (a, pi')
      else partition_loop vp fuel' (swap pi' pj' a) pi' pj'
  end.

(** One partition of a segment [a], with [pl = 0] and [pr = length a - 1]:
    the median of the first, middle and last key is the pivot; it waits at
    [pr - 1] while the rows between are exchanged, and then goes to the place
    [pi] where the scans met. *)
Definition partition (a : list A) : list A * nat :=
  let pr := (length a - 1)%nat in
  let pm := (pr / 2)%nat in
  let a := swap_if_less pm 0 a in
  let a := swap_if_less pr pm a in
  let a := swap_if_less pm 0 a in
  match a !! pm with
  | None => (a, 0%nat)
  | Some pivot =>
      let a := swap pm (pr - 1) a in
      let '(a, pi) := partition_loop (key pivot) (length a) a 0 (pr - 1) in
      (swap pi (pr - 1) a, pi)
  end.

(** [aheapsort], which takes over a segment whose depth budget is used up. *)
Context (heapsort : list A -> list A).

(** The sort of one segment.  A segment of more than seventeen rows is
    partitioned; the smaller part is gone on with at once, the larger waits on
    the stack and is checked against the depth budget when it is taken from it
    ([popped]).  A shorter segment is sorted by insertion, which keeps rows of
    equal keys in their order. *)
Fixpoint aquicksort_from (fuel : nat) (popped : bool) (cdepth : Z) (a : list A) : list A :=
  match fuel with
  | O => insertion_sort key a
  | S fuel' =>
      if popped && (cdepth <? 0) then heapsort a
      else if (SMALL_QUICKSORT <? length a - 1)%nat then
        let '(a', pi) := partition a in
        let left := take pi a' in
        let pivot := take 1 (drop pi a') in
        let right := drop (S pi) a' in
        if (length left <? length right)%nat
        then aquicksort_from fuel' false (cdepth - 1) left ++ pivot
             ++ aquicksort_from fuel' true (cdepth - 1) right
        else aquicksort_from fuel' true (cdepth - 1) left ++ pivot
             ++ aquicksort_from fuel' false (cdepth - 1) right
      else insertion_sort key a
  end.

(** The whole array, with a depth budget of twice the position of the
    highest bit of its length. *)
Definition aquicksort (a : list A) : list A :=
  aquicksort_from (length a) true (Z.log2 (Z.of_nat (length a)) * 2) a.

End Quicksort.
End Numpy.

(** ** The data model, the world and the [Py] monad *)

Module Model.
Import Python Pandas.

(** One fetched post or comment, as [fetch_reddit_data] appends it: the dict
    [{"text": ..., "created_utc": ...}]. *)
Record RawItem : Type := mkRawItem {
  text : json;
  created_utc : json
}.

(** A row of the frame [analyze_sentiments] builds: columns [date], [polarity]. *)
Record SentimentPoint : Type := mkSentimentPoint {
  s_date : Timestamp;
  s_polarity : float
}.

(** A row of the price frame: columns [date], [Close] ([nan] for a gap). *)
Record PricePoint : Type := mkPricePoint {
  p_date : Timestamp;
  p_Close : float
}.

(** A row of the merged frame: columns [date], [polarity], [Close]. *)
Record MergedPoint : Type := mkMergedPoint {
  m_date : Timestamp;
  m_polarity : float;
  m_Close : float
}.

(** The DataFrame objects of the program. *)
Inductive obj : Type :=
  | SentDF (df : DataFrame SentimentPoint)
  | PriceDF (df : DataFrame PricePoint)
  | MergedDF (df : DataFrame MergedPoint).

(** A reference to an object: its address in the heap. *)
Definition ref : Type := nat.

(** [requests.get(url, params=params, headers=HEADERS)] *)
Record Request : Type := mkRequest {
  url : string;
  params : list (string * json);
  headers : list (string * string)
}.

(** A response: its status code and its body as [resp.json()] would parse it
    ([None] when the body is not JSON). *)
Record Response : Type := mkResponse {
  status_code : Z;
  body : option json
}.

Inductive outcome : Type :=
  | Fails (e : exn)
  | Responds (resp : Response).

(** [yf.download(symbol, period=period, interval=interval, progress=False)] *)
Record Download : Type := mkDownload {
  symbol : string;
  dl_period : string;
  dl_interval : string
}.

Record world : Type := mkWorld {
  requests_log : list Request;
  downloads : list Download;
  heap : list obj
}.

(** Before any request, any download and any frame. *)
Definition empty_world : world := mkWorld [] [] [].

(** A Python computation: it may raise, and it changes the world. *)
Definition Py (A : Type) : Type := world -> result A * world.

#[global] Instance Py_ret : MRet Py := fun A a w => (Ok a, w).
#[global] Instance Py_bind : MBind Py := fun A B f m w =>
  match m w with
  | (Ok a, w') => f a w'
  | (Raise e, w') => (Raise e, w')
  end.

Definition lift {A} (r : result A) : Py A := fun w => (r, w).

(** A new object: it takes the next free address; no other object changes. *)
Definition alloc (o : obj) : Py ref := fun w =>
  (Ok (length (heap w)), mkWorld (requests_log w) (downloads w) (heap w ++ [o])).

Definition deref (r : ref) : Py obj := fun w =>
  (match heap w !! r with
   | Some o => Ok o
   | None => Raise BadReference
   end, w).

(** *** The external libraries *)

(** The network as [requests.get] sees it: what the server answers to a
    request, given the requests made before. *)
Class Network : Type := respond : list Request -> Request -> outcome.

(** [TextBlob(txt).sentiment.polarity] *)
Class TextBlob : Type := polarity_of : string -> float.

(** [pd.to_datetime(v, unit="s")]: on an [int], the instant that many seconds
    after the epoch when pandas can represent it ([in_bounds]) and
    [OutOfBoundsDatetime] otherwise; on any other value, whatever pandas does
    ([to_datetime_other]). *)
Class Datetimes : Type := {
  in_bounds : Z -> bool;
  to_datetime_other : json -> result Timestamp
}.

(** The frame [yf.download] returns: an index of instants, under its name when
    it has one, and columns of floats under their labels, each as long as the
    index. *)
Record Quotes : Type := mkQuotes {
  index_name : option string;
  index : list Timestamp;
  quote_columns : gmap string (list float)
}.

(** Yahoo Finance as [yf.download] sees it: what comes back for a download,
    given the downloads made before. *)
Class YFinance : Type := download : list Download -> Download -> result Quotes.

(** *** pandas on the downloaded frame *)

(** A frame whose first column holds instants, as [reset_index()] leaves it. *)
Record Table : Type := mkTable {
  first_label : string;
  first_column : list Timestamp;
  other_columns : gmap string (list float)
}.

(** The label [reset_index()] gives the column it makes of the index: the
    name of the index, and for an index without a name [index], or [level_0]
    when [index] is taken. *)
Definition index_label (q : Quotes) : string :=
  match index_name q with
  | Some name => name
  | None =>
      match quote_columns q !! "index" with
      | Some _ => "level_0"
      | None => "index"
      end
  end.

(** [df.reset_index()]: the index becomes the first column; a column that has
    its label already is in the way. *)
Definition reset_index (q : Quotes) : result Table :=
  match quote_columns q !! index_label q with
  | Some _ => Raise (ValueError ("cannot insert " +:+ index_label q +:+ ", already exists"))
  | None => Ok (mkTable (index_label q) (index q) (quote_columns q))
  end.

(** [df.rename(columns={df.columns[0]: label}, inplace=True)] on a frame that
    [reset_index()] has just returned, which nothing else refers to: no other
    column has the label of the first one. *)
Definition rename_first (label : string) (t : Table) : Table :=
  mkTable label (first_column t) (other_columns t).

(** [df[["date", "Close"]]] of a frame whose first column is [date], as the
    frame of price points it is.  A missing [Close] is a [KeyError]; with a
    second column labelled [date] the selection has two of them, and the
    [sort_values("date")] that follows refuses the ambiguous label. *)
Definition select_date_Close (t : Table) : result (DataFrame PricePoint) :=
  match other_columns t !! "Close" with
  | None => Raise (KeyError "['Close'] not in index")
  | Some closes =>
      match other_columns t !! "date" with
      | Some _ => Raise (ValueError "The column label 'date' is not unique.")
      | None => Ok (mkDataFrame ["date"; "Close"] (zip_with mkPricePoint (first_column t) closes))
      end
  end.

(** *** pandas on the program's objects *)

Section Frames.
Context {srt : Sorter}.

Definition obj_sort_values (o : obj) : result obj :=
  match o with
  | SentDF df => SentDF <$> sort_values_date s_date df
  | PriceDF df => PriceDF <$> sort_values_date p_date df
  | MergedDF df => MergedDF <$> sort_values_date m_date df
  end.

Definition obj_reset_index (o : obj) : obj :=
  match o with
  | SentDF df => SentDF (reset_index_drop df)
  | PriceDF df => PriceDF (reset_index_drop df)
  | MergedDF df => MergedDF (reset_index_drop df)
  end.

(** [df.sort_values("date")] *)
Definition df_sort_values (df : ref) : Py ref :=
  o ← deref df; o' ← lift (obj_sort_values o); alloc o'.

(** [df.reset_index(drop=True)] *)
Definition df_reset_index (df : ref) : Py ref :=
  o ← deref df; alloc (obj_reset_index o).

(** The merged row: the left row with the [Close] of its match, [nan] without one. *)
Definition joined (s : SentimentPoint) (match_ : option PricePoint) : MergedPoint :=
  mkMergedPoint (s_date s) (s_polarity s)
    (match match_ with
     | Some p => p_Close p
     | None => nan
     end).

(** [pd.merge_asof(left, right, on="date", direction="backward")] of a
    sentiment frame and a price frame. *)
Definition merge_asof_date (left : DataFrame SentimentPoint) (right : DataFrame PricePoint)
  : result (DataFrame MergedPoint) :=
  if has_column "date" left && has_column "date" right then
    merged ← merge_asof_rows s_date p_date joined (rows left) (rows right);
    Ok (mkDataFrame
          (columns left ++ List.filter (fun c => negb (String.eqb c "date")) (columns right))
          merged)
  else Raise (KeyError "date").

Definition pd_merge_asof (left right : ref) : Py ref :=
  l ← deref left; r ← deref right;
  match l, r with
  | SentDF ldf, PriceDF rdf => m ← lift (merge_asof_date ldf rdf); alloc (MergedDF m)
  | _, _ => lift (Raise BadReference)
  end.

End Frames.

End Model.

(** ** Collector: [fetch_reddit_data] *)

Module Collector.
Import Python Pandas Model.

Definition PUSHSHIFT_BASE : string := "https://api.pushshift.io/reddit/search".
Definition HEADERS : list (string * string) :=
  [("User-Agent", "crypto-sentiment-analyzer/1.0")].

(** The two values of [kind]. *)
Inductive item_kind : Type := submission | comment.

Definition kind_name (kind : item_kind) : string :=
  match kind with
  | submission => "submission"
  | comment => "comment"
  end.

(** The request of one pass of the inner loop. *)
Definition request_for (ticker : string) (post_limit : Z) (kind : item_kind) (sub : string)
  : Request :=
  mkRequest
    (PUSHSHIFT_BASE +:+ "/" +:+ kind_name kind +:+ "/")
    [("subreddit", JStr sub);
     ("q", JStr ticker);
     ("size", JInt post_limit);
     ("fields", match kind with
                | submission => JArr [JStr "title"; JStr "selftext"; JStr "created_utc"]
                | comment => JArr [JStr "body"; JStr "created_utc"]
                end);
     ("sort", JStr "desc");
     ("sort_type", JStr "created_utc")]
    HEADERS.

(** [resp.ok] of requests: no 4xx or 5xx status. *)
Definition ok (resp : Response) : bool :=
  negb ((400 <=? status_code resp) && (status_code resp <? 600)).

(** [resp.raise_for_status()] *)
Definition raise_for_status (resp : Response) : result unit :=
  if ok resp then Ok tt else Raise (HTTPError (status_code resp)).

(** [resp.json()] *)
Definition resp_json (resp : Response) : result json :=
  match body resp with
  | Some v => Ok v
  | None => Raise JSONDecodeError
  end.

(** The [text] of an item: title and selftext joined by a space for a
    submission, the body for a comment. *)
Definition item_text (kind : item_kind) (item : json) : result json :=
  match kind with
  | submission =>
      title ← py_get item "title" JNull;
      left ← add_str_r (py_or title (JStr "")) " ";
      selftext ← py_get item "selftext" JNull;
      JStr <$> add_str_l left (py_or selftext (JStr ""))
  | comment => py_get item "body" (JStr "")
  end.

(** The dict appended to [results] for one item. *)
Definition raw_item (kind : item_kind) (item : json) : result RawItem :=
  txt ← item_text kind item;
  created ← py_get item "created_utc" (JInt 0);
  Ok (mkRawItem txt created).

(** [for item in resp.json().get("data", []): ... results.append(...)] *)
Fixpoint items_loop (kind : item_kind) (items : list json) (results : list RawItem)
  : result (list RawItem) :=
  match items with
  | [] => Ok results
  | item :: rest => r ← raw_item kind item; items_loop kind rest (results ++ [r])
  end.

Section Fetch.
Context {net : Network}.

(** [requests.get]: the request goes out, and the answer or the failure comes back. *)
Definition requests_get (req : Request) : Py Response := fun w =>
  let w' := mkWorld (requests_log w ++ [req]) (downloads w) (heap w) in
  match respond (requests_log w) req with
  | Fails e => (Raise e, w')
  | Responds resp => (Ok resp, w')
  end.

(** [for sub in subreddits: ...] *)
Fixpoint subs_loop (ticker : string) (post_limit : Z) (kind : item_kind)
    (subreddits : list string) (results : list RawItem) : Py (list RawItem) :=
  match subreddits with
  | [] => mret results
  | sub :: rest =>
      resp ← requests_get (request_for ticker post_limit kind sub);
      _ ← lift (raise_for_status resp);
      data ← lift (doc ← resp_json resp; d ← py_get doc "data" (JArr []); py_iter d);
      results ← lift (items_loop kind data results);
      subs_loop ticker post_limit kind rest results
  end.

(** [for kind in ("submission", "comment"): ...] *)
Fixpoint kinds_loop (ticker : string) (post_limit : Z) (kinds : list item_kind)
    (subreddits : list string) (results : list RawItem) : Py (list RawItem) :=
  match kinds with
  | [] => mret results
  | kind :: rest =>
      results ← subs_loop ticker post_limit kind subreddits results;
      kinds_loop ticker post_limit rest subreddits results
  end.

Definition fetch_reddit_data (ticker : string) (subreddits : list string) (post_limit : Z)
  : Py (list RawItem) :=
  kinds_loop ticker post_limit [submission; comment] subreddits [].

(** The requests a run without failure makes, in order. *)
Definition planned_requests (ticker : string) (subreddits : list string) (post_limit : Z)
  : list Request :=
  map (request_for ticker post_limit submission) subreddits
  ++ map (request_for ticker post_limit comment) subreddits.

End Fetch.

End Collector.

(** ** Scorer: [analyze_sentiments] *)

Module Scorer.
Import Python Pandas Model.

Section Score.
Context {srt : Sorter} {blob : TextBlob} {dts : Datetimes}.

(** [pd.to_datetime(v, unit="s")] *)
Definition to_datetime (v : json) : result Timestamp :=
  match v with
  | JInt n => if in_bounds n then Ok (n * 1000000000) else Raise OutOfBoundsDatetime
  | _ => to_datetime_other v
  end.

(** One pass of the loop: [TextBlob] accepts only a [str]. *)
Definition score_entry (entry : RawItem) : result SentimentPoint :=
  match text entry with
  | JStr txt =>
      date ← to_datetime (created_utc entry);
      Ok (mkSentimentPoint date (polarity_of txt))
  | _ => Raise TypeError
  end.

(** [for entry in data: ... rows.append(...)] *)
Fixpoint score_loop (data : list RawItem) (rows : list SentimentPoint)
  : result (list SentimentPoint) :=
  match data with
  | [] => Ok rows
  | entry :: rest => r ← score_entry entry; score_loop rest (rows ++ [r])
  end.

(** [pd.DataFrame(rows)] of a list of dicts with the keys [date] and
    [polarity]: the columns come from the dicts, so no dict, no column. *)
Definition DataFrame_of_records (records : list SentimentPoint) : DataFrame SentimentPoint :=
  mkDataFrame (match records with
               | [] => []
               | _ :: _ => ["date"; "polarity"]
               end) records.

Definition analyze_sentiments (data : list RawItem) : Py ref :=
  rows ← lift (score_loop data []);
  df ← alloc (SentDF (DataFrame_of_records rows));
  df_sort_values df.

End Score.

End Scorer.

(** ** Aligner: [merge_df], and the price adapter [get_price_df] *)

Module Aligner.
Import Python Pandas Model.

Section Merge.
Context {srt : Sorter}.

Definition merge_df (sent_df price_df : ref) : Py ref :=
  sent_df ← (sorted ← df_sort_values sent_df; df_reset_index sorted);
  price_df ← (sorted ← df_sort_values price_df; df_reset_index sorted);
  merged ← pd_merge_asof sent_df price_df;
  mret merged.

(** A sentiment frame and a price frame with their columns. *)
Definition sent_frame (S : list SentimentPoint) : obj :=
  SentDF (mkDataFrame ["date"; "polarity"] S).
Definition price_frame (P : list PricePoint) : obj :=
  PriceDF (mkDataFrame ["date"; "Close"] P).

(** [merge_df] as the contract [merge(sentiments, prices)] reads it: the rows
    of the frame it returns when called on a frame with the rows [S] and a
    frame with the rows [P]. *)
Definition merge (S : list SentimentPoint) (P : list PricePoint) : result (list MergedPoint) :=
  match merge_df 0%nat 1%nat (mkWorld [] [] [sent_frame S; price_frame P]) with
  | (Ok merged, w) =>
      match heap w !! merged with
      | Some (MergedDF df) => Ok (rows df)
      | _ => Raise BadReference
      end
  | (Raise e, _) => Raise e
  end.

Context {yf : YFinance}.

(** [yf.download]: the download goes out, and the frame or the failure comes
    back. *)
Definition yf_download (d : Download) : Py Quotes := fun w =>
  (download (downloads w) d, mkWorld (requests_log w) (downloads w ++ [d]) (heap w)).

(** The frames between the download and the selection are temporaries that
    nothing else refers to; the selected frame and the sorted one are objects. *)
Definition get_price_df (ticker_full period interval : string) : Py ref :=
  quotes ← yf_download (mkDownload (ticker_full +:+ "-USD") period interval);
  df ← lift (reset_index quotes);
  selected ← lift (select_date_Close (rename_first "date" df));
  selected ← alloc (PriceDF selected);
  df_sort_values selected.

End Merge.

End Aligner.

(** ** The pipeline of the [if run:] block, up to the merged frame *)

Module App.
Import Python Pandas Model Collector Scorer Aligner.

Definition CRYPTO_TICKERS : list (string * string) :=
  [("Bitcoin (BTC)", "BTC"); ("Ethereum (ETH)", "ETH"); ("Solana (SOL)", "SOL");
   ("Ripple (XRP)", "XRP"); ("Tether (USDT)", "USDT"); ("USD Coin (USDC)", "USDC");
   ("Dai (DAI)", "DAI")].

Fixpoint ticker_of (table : list (string * string)) (name : string) : result string :=
  match table with
  | [] => Raise (KeyError name)
  | (k, v) :: rest => if String.eqb k name then Ok v else ticker_of rest name
  end.

(** How a run ends when nothing raises: stopped by the guard on empty data, or
    through to the merged frame. *)
Inductive finished : Type :=
  | NoData
  | Merged (sent_df merged : ref).

Section Run.
Context {srt : Sorter} {net : Network} {blob : TextBlob} {dts : Datetimes} {yf : YFinance}.

Definition run (crypto_name : string) (num_posts : Z) (subs : list string)
    (period interval : string) : Py finished :=
  ticker ← lift (ticker_of CRYPTO_TICKERS crypto_name);
  data ← fetch_reddit_data ticker subs num_posts;
  match data with
  | [] => mret NoData
  | _ :: _ =>
      sent_df ← analyze_sentiments data;
      ticker ← lift (ticker_of CRYPTO_TICKERS crypto_name);
      price_df ← get_price_df ticker period interval;
      merged ← merge_df sent_df price_df;
      mret (Merged sent_df merged)
  end.

End Run.

End App.

(** ** What the page shows of the frames *)

Module Display.
Import Python Pandas Model.

(** [merged["Close"].iloc[-1]], the "Latest Close" metric: the [Close] of the
    last row; a frame without rows has none ([IndexError]). *)
Definition last_close (merged : DataFrame MergedPoint) : option float :=
  m_Close <$> last (rows merged).

(** [df.tail(n)]: the last [n] rows, all rows when there are fewer. *)
Definition df_tail {A} (n : nat) (df : DataFrame A) : DataFrame A :=
  mkDataFrame (columns df) (drop (length (rows df) - n) (rows df)).

(** [sent_df.tail(10)], the "Recent Sentiment Samples" table. *)
Definition recent_samples (sent_df : DataFrame SentimentPoint) : DataFrame SentimentPoint :=
  df_tail 10 sent_df.

End Display.

(** * Properties *)

(** ** Sorting and the as-of join *)

Module PandasFacts.
Import Python Pandas.

Section Sorting.
Context {A : Type} (key : A -> Timestamp).

Lemma insert_row_perm x l : Permutation (insert_row key x l) (x :: l).
Proof.
  induction l as [|y rest IH]; simpl; [done|].
  destruct (key x <=? key y); [done|].
  rewrite IH. apply perm_swap.
Qed.

Lemma insertion_sort_perm l : Permutation (insertion_sort key l) l.
Proof.
  induction l as [|x rest IH]; simpl; [done|].
  rewrite insert_row_perm. by constructor.
Qed.

Lemma sorted_by_cons x l :
  sorted_by key (x :: l) <-> Forall (fun y => key x <= key y) l /\ sorted_by key l.
Proof.
  unfold sorted_by. split.
  - intros Hs. apply StronglySorted_inv in Hs. tauto.
  - intros [Hx Hl]. by constructor.
Qed.

Lemma insert_row_sorted x l : sorted_by key l -> sorted_by key (insert_row key x l).
Proof.
  induction l as [|y rest IH]; simpl; intros Hs.
  - apply sorted_by_cons. split; constructor.
  - apply sorted_by_cons in Hs as [Hy Hrest].
    destruct (Z.leb_spec (key x) (key y)) as [Hle|Hgt].
    + apply sorted_by_cons. split.
      * constructor; [done|]. eapply Forall_impl; [exact Hy|]. simpl. lia.
      * by apply sorted_by_cons.
    + apply sorted_by_cons. split; [|by apply IH].
      rewrite insert_row_perm. constructor; [lia|done].
Qed.

Lemma insertion_sort_sorted l : sorted_by key (insertion_sort key l).
Proof.
  induction l as [|x rest IH]; simpl; [constructor|]. by apply insert_row_sorted.
Qed.

Lemma insertion_sort_keeps l : sorted_by key l -> insertion_sort key l = l.
Proof.
  induction l as [|x rest IH]; simpl; [done|].
  intros [Hx Hrest]%sorted_by_cons. rewrite IH by done.
  destruct rest as [|y rest']; simpl; [done|].
  apply Forall_cons in Hx as [Hxy _].
  by destruct (Z.leb_spec (key x) (key y)); [|lia].
Qed.

Lemma is_monotonic_increasing_sorted l :
  is_monotonic_increasing key l = true <-> sorted_by key l.
Proof.
  induction l as [|x rest IH]; [by split; [constructor|]|].
  rewrite sorted_by_cons. destruct rest as [|y rest'].
  - split; [|done]. intros _. split; constructor.
  - change (is_monotonic_increasing key (x :: y :: rest'))
      with ((key x <=? key y) && is_monotonic_increasing key (y :: rest')).
    rewrite andb_true_iff, IH, Z.leb_le. split.
    + intros [Hxy Hs]. split; [|done]. constructor; [done|].
      apply sorted_by_cons in Hs as [Hy _].
      eapply Forall_impl; [exact Hy|]. simpl. lia.
    + intros [Hx Hs]. by apply Forall_cons in Hx as [Hxy _].
Qed.

Lemma sorted_by_app l1 l2 :
  sorted_by key (l1 ++ l2) ->
  sorted_by key l1 /\ sorted_by key l2 /\
  Forall (fun x => Forall (fun y => key x <= key y) l2) l1.
Proof.
  induction l1 as [|x l1 IH]; simpl.
  - intros Hs. repeat split; [constructor|done|constructor].
  - intros [Hx Hs]%sorted_by_cons. destruct (IH Hs) as (H1 & H2 & H12).
    apply Forall_app in Hx as [Hx1 Hx2].
    repeat split; [by apply sorted_by_cons|done|by constructor].
Qed.

(** With no two rows of the same key there is one sorted order only. *)
Lemma sorted_by_unique l l' :
  NoDup (map key l) -> sorted_by key l -> sorted_by key l' -> Permutation l l' -> l = l'.
Proof.
  revert l'. induction l as [|x rest IH]; intros l' Hnd Hs Hs' Hperm.
  - by apply Permutation_nil_l in Hperm.
  - destruct l' as [|y rest']; [by apply Permutation_nil_r in Hperm|].
    apply sorted_by_cons in Hs as [Hx Hs]. apply sorted_by_cons in Hs' as [Hy Hs'].
    cbn [map] in Hnd. apply NoDup_cons in Hnd as [Hnx Hnd].
    assert (x = y) as <-.
    { assert (x ∈ y :: rest') as Hxin by (rewrite <-Hperm; left).
      assert (y ∈ x :: rest) as Hyin by (rewrite Hperm; left).
      apply elem_of_cons in Hxin as [->|Hxin]; [done|].
      apply elem_of_cons in Hyin as [->|Hyin]; [done|].
      rewrite Forall_forall in Hx, Hy. specialize (Hx y Hyin). specialize (Hy x Hxin).
      exfalso. apply Hnx. replace (key x) with (key y) by lia.
      apply list_elem_of_In, in_map, list_elem_of_In, Hyin. }
    f_equal. apply IH; try done. by eapply Permutation_cons_inv.
Qed.

Lemma sorted_by_app_intro l1 l2 :
  sorted_by key l1 -> sorted_by key l2 ->
  Forall (fun x => Forall (fun y => key x <= key y) l2) l1 ->
  sorted_by key (l1 ++ l2).
Proof.
  induction l1 as [|x l1 IH]; simpl; intros Hs1 Hs2 H12; [done|].
  apply sorted_by_cons in Hs1 as [Hx Hs1]. apply Forall_cons in H12 as [Hx2 H12].
  apply sorted_by_cons. split; [by apply Forall_app|by apply IH].
Qed.

End Sorting.

(** Insertion sort meets the interface, and keeps a sorted frame as it is. *)
#[export] Instance insertion_sorter : Sorter :=
  {| sort_rows := @insertion_sort;
     sort_rows_perm := @insertion_sort_perm;
     sort_rows_sorted := @insertion_sort_sorted |}.

#[export] Instance insertion_sorter_keeps : KeepsSorted insertion_sorter.
Proof. intros A key l. apply insertion_sort_keeps. Qed.

Section AsOfFacts.
Context {L R M : Type}.
Context (lkey : L -> Timestamp) (rkey : R -> Timestamp) (join : L -> option R -> M).

(** The cursor after a run of rows it passes: the last of them, if any. *)
Definition last_or (cur : option R) (passed : list R) : option R :=
  match last passed with
  | Some p => Some p
  | None => cur
  end.

Lemma last_or_cons cur p passed : last_or cur (p :: passed) = last_or (Some p) passed.
Proof. unfold last_or. rewrite last_cons. by destruct (last passed). Qed.

Lemma advance_app t cur passed rest :
  Forall (fun p => rkey p <= t) passed ->
  advance rkey t cur (passed ++ rest) = advance rkey t (last_or cur passed) rest.
Proof.
  revert cur. induction passed as [|p passed IH]; intros cur Hle; [done|].
  apply Forall_cons in Hle as [Hp Hle]. simpl.
  destruct (Z.leb_spec (rkey p) t); [|lia].
  by rewrite IH, last_or_cons.
Qed.

(** What one advance of the cursor does: it passes a run of rows at or before
    [t] and stops in front of the first later row. *)
Lemma advance_split t cur right :
  exists passed,
    right = passed ++ snd (advance rkey t cur right) /\
    Forall (fun p => rkey p <= t) passed /\
    fst (advance rkey t cur right) = last_or cur passed /\
    match snd (advance rkey t cur right) with
    | [] => True
    | q :: _ => t < rkey q
    end.
Proof.
  revert cur. induction right as [|p rest IH]; intros cur.
  - exists []. by repeat split.
  - simpl. destruct (Z.leb_spec (rkey p) t) as [Hle|Hgt].
    + destruct (IH (Some p)) as (passed & Heq & Hall & Hfst & Hstop).
      exists (p :: passed). rewrite last_or_cons. repeat split; try done.
      * simpl. by rewrite <-Heq.
      * by constructor.
    + exists []. by repeat split.
Qed.

(** With the left rows sorted, the cursor never has to go back: the scan
    gives every left row the match a lookup from the start would. *)
Lemma asof_backward_scan left passed rest :
  sorted_by lkey left ->
  Forall (fun s => Forall (fun p => rkey p <= lkey s) passed) left ->
  asof_backward lkey rkey join left (last passed) rest
  = map (fun s => join s (asof_lookup rkey (lkey s) (passed ++ rest))) left.
Proof.
  revert passed rest. induction left as [|s left IH]; intros passed rest Hs Hp; [done|].
  apply sorted_by_cons in Hs as [Hsl Hs]. apply Forall_cons in Hp as [Hps Hp].
  simpl. destruct (advance_split (lkey s) (last passed) rest) as (more & Heq & Hmore & Hfst & Hstop).
  destruct (advance rkey (lkey s) (last passed) rest) as [cur' rest'] eqn:Hadv.
  simpl in Heq, Hfst, Hstop. f_equal.
  - unfold asof_lookup. rewrite advance_app by done.
    replace (last_or None passed) with (last passed) by (unfold last_or; by destruct (last passed)).
    by rewrite Hadv.
  - assert (cur' = last (passed ++ more)) as ->.
    { rewrite Hfst, last_app. unfold last_or. by destruct (last more). }
    rewrite IH; [by rewrite <-(assoc_L (++)), <-Heq|done|].
    rewrite Forall_forall in Hsl, Hp. apply Forall_forall. intros s' Hs'.
    apply Forall_app. split.
    + eapply Forall_impl; [exact (Hp s' Hs')|]. done.
    + eapply Forall_impl; [exact Hmore|]. simpl. intros p Hple.
      specialize (Hsl s' Hs'). lia.
Qed.

Lemma asof_backward_lookup left right :
  sorted_by lkey left ->
  asof_backward lkey rkey join left None right
  = map (fun s => join s (asof_lookup rkey (lkey s) right)) left.
Proof.
  intros Hs. apply (asof_backward_scan left [] right Hs).
  apply Forall_forall. intros s _. constructor.
Qed.

Lemma merge_asof_rows_sorted left right :
  sorted_by lkey left -> sorted_by rkey right ->
  merge_asof_rows lkey rkey join left right
  = Ok (map (fun s => join s (asof_lookup rkey (lkey s) right)) left).
Proof.
  intros Hl Hr. unfold merge_asof_rows.
  rewrite (proj2 (is_monotonic_increasing_sorted lkey left) Hl).
  rewrite (proj2 (is_monotonic_increasing_sorted rkey right) Hr). simpl.
  by rewrite asof_backward_lookup.
Qed.

(** In sorted right rows, the rows the cursor stops in front of are all later. *)
Lemma asof_lookup_sorted t right :
  sorted_by rkey right ->
  exists passed rest,
    right = passed ++ rest /\
    asof_lookup rkey t right = last passed /\
    Forall (fun p => rkey p <= t) passed /\
    Forall (fun q => t < rkey q) rest.
Proof.
  intros Hs. destruct (advance_split t None right) as (passed & Heq & Hall & Hfst & Hstop).
  exists passed, (snd (advance rkey t None right)). repeat split; try done.
  - unfold asof_lookup. rewrite Hfst. unfold last_or. by destruct (last passed).
  - rewrite Heq in Hs. apply sorted_by_app in Hs as (_ & Hrest & _).
    destruct (snd (advance rkey t None right)) as [|q rest]; [constructor|].
    apply sorted_by_cons in Hrest as [Hq _]. constructor; [done|].
    eapply Forall_impl; [exact Hq|]. simpl. lia.
Qed.

Lemma asof_lookup_Some t right p :
  sorted_by rkey right -> asof_lookup rkey t right = Some p ->
  p ∈ right /\ rkey p <= t /\ forall q, q ∈ right -> rkey q <= t -> rkey q <= rkey p.
Proof.
  intros Hs Hp. destruct (asof_lookup_sorted t right Hs) as (passed & rest & Heq & Hl & Hle & Hgt).
  rewrite Hl in Hp. apply last_Some in Hp as [passed' ->].
  apply Forall_app in Hle as [Hle' Hp]. apply Forall_cons in Hp as [Hp _].
  subst right. split; [rewrite !elem_of_app, list_elem_of_singleton; auto|]. split; [done|].
  intros q Hq Hqt. rewrite !elem_of_app in Hq. destruct Hq as [[Hq|Hq]|Hq].
  - rewrite <-(assoc_L (++)) in Hs. apply sorted_by_app in Hs as (_ & _ & Hs).
    rewrite Forall_forall in Hs. specialize (Hs q Hq).
    by apply Forall_app in Hs as [[Hs _]%Forall_cons _].
  - apply list_elem_of_singleton in Hq as ->. lia.
  - rewrite Forall_forall in Hgt. specialize (Hgt q Hq). lia.
Qed.

Lemma asof_lookup_None t right :
  sorted_by rkey right -> asof_lookup rkey t right = None ->
  forall q, q ∈ right -> t < rkey q.
Proof.
  intros Hs Hp. destruct (asof_lookup_sorted t right Hs) as (passed & rest & Heq & Hl & Hle & Hgt).
  rewrite Hl in Hp. apply last_None in Hp as ->. simpl in Heq. subst rest.
  by apply Forall_forall.
Qed.

End AsOfFacts.

End PandasFacts.

(** ** numpy's quicksort is a sort *)

Module NumpyFacts.
Import Python Pandas Numpy PandasFacts.

Section QuicksortFacts.
Context {A : Type} (key : A -> Timestamp).

Lemma length_swap i j (a : list A) : length (swap i j a) = length a.
Proof.
  unfold swap. destruct (a !! i), (a !! j); try done. by rewrite !length_insert.
Qed.

Lemma lookup_swap_ne i j k (a : list A) :
  k <> i -> k <> j -> swap i j a !! k = a !! k.
Proof.
  intros Hi Hj. unfold swap. destruct (a !! i), (a !! j); try done.
  by rewrite !list_lookup_insert_ne.
Qed.

Lemma lookup_swap_l i j (a : list A) x y :
  a !! i = Some x -> a !! j = Some y -> swap i j a !! i = Some y.
Proof.
  intros Hi Hj. unfold swap. rewrite Hi, Hj.
  destruct (decide (i = j)) as [->|Hne].
  - rewrite list_lookup_insert_eq; [congruence|].
    rewrite length_insert. by eapply lookup_lt_Some.
  - rewrite list_lookup_insert_ne by done.
    apply list_lookup_insert_eq. by eapply lookup_lt_Some.
Qed.

Lemma lookup_swap_r i j (a : list A) x y :
  a !! i = Some x -> a !! j = Some y -> swap i j a !! j = Some x.
Proof.
  intros Hi Hj. unfold swap. rewrite Hi, Hj.
  apply list_lookup_insert_eq. rewrite length_insert. by eapply lookup_lt_Some.
Qed.

Lemma insert_perm_cons i (a : list A) x y :
  a !! i = Some x -> Permutation (y :: a) (x :: <[i := y]> a).
Proof.
  intros Hi. rewrite <-(take_drop_middle a i x Hi) at 1.
  rewrite insert_take_drop by by eapply lookup_lt_Some.
  rewrite <-!Permutation_middle. apply perm_swap.
Qed.

Lemma swap_perm i j (a : list A) : Permutation (swap i j a) a.
Proof.
  unfold swap. destruct (a !! i) as [x|] eqn:Hi; [|done].
  destruct (a !! j) as [y|] eqn:Hj; [|done].
  destruct (decide (i = j)) as [->|Hne].
  - assert (x = y) as -> by congruence.
    by rewrite (list_insert_id a j y Hj), (list_insert_id a j y Hj).
  - apply (Permutation_cons_inv (a := y)).
    rewrite (insert_perm_cons i a x y Hi).
    symmetry. apply insert_perm_cons. by rewrite list_lookup_insert_ne.
Qed.

(** The entries before [r] are at most [vp], those from [r] on at least [vp]. *)
Definition below (vp : Timestamp) (a : list A) (r : nat) : Prop :=
  forall k x, (k < r)%nat -> a !! k = Some x -> key x <= vp.
Definition above (vp : Timestamp) (a : list A) (r : nat) : Prop :=
  forall k x, (r <= k)%nat -> a !! k = Some x -> vp <= key x.

Lemma scan_up_spec vp rest i :
  (i <= scan_up key vp rest i <= i + length rest)%nat /\
  (forall k x, rest !! k = Some x -> (i + k < scan_up key vp rest i)%nat -> key x < vp) /\
  (forall x, rest !! (scan_up key vp rest i - i)%nat = Some x -> vp <= key x).
Proof.
  revert i. induction rest as [|y rest IH]; intros i; simpl.
  - split_and!; [lia|lia|done|done].
  - destruct (Z.ltb_spec (key y) vp) as [Hlt|Hge].
    + destruct (IH (S i)) as (Hr & Hbefore & Hat). split_and!; [lia|lia| |].
      * intros [|k] x Hk Hlt'; [by injection Hk as <-|].
        apply (Hbefore k); [done|lia].
      * intros x. replace (scan_up key vp rest (S i) - i)%nat
          with (S (scan_up key vp rest (S i) - S i)) by lia.
        apply Hat.
    + split_and!; [lia|lia|intros; lia|].
      intros x. rewrite Nat.sub_diag. by intros [= <-].
Qed.

Lemma scan_down_spec vp (a : list A) j :
  (j <= length a)%nat ->
  (scan_down key vp a j <= j)%nat /\
  ((0 < j)%nat -> (scan_down key vp a j < j)%nat) /\
  (forall k, (scan_down key vp a j < k < j)%nat -> exists x, a !! k = Some x /\ vp < key x) /\
  (forall i x, (i < j)%nat -> a !! i = Some x -> key x <= vp ->
     (i <= scan_down key vp a j)%nat /\
     exists y, a !! scan_down key vp a j = Some y /\ key y <= vp).
Proof.
  induction j as [|k IH]; intros Hj; simpl.
  - split_and!; [lia|lia|intros; lia|intros; lia].
  - destruct (lookup_lt_is_Some_2 a k) as [y Hy]; [lia|]. rewrite Hy.
    destruct (Z.ltb_spec vp (key y)) as [Hlt|Hge].
    + destruct IH as (Hr & _ & Hbetween & Hsentinel); [lia|]. split_and!; [lia|lia| |].
      * intros k' Hk'. destruct (decide (k' = k)) as [->|Hne]; [by exists y|].
        apply Hbetween. lia.
      * intros i x Hi Hx Hle. destruct (decide (i = k)) as [->|Hne].
        -- rewrite Hy in Hx. injection Hx as <-. lia.
        -- apply (Hsentinel i x); [lia|done|done].
    + split_and!; [lia|lia|intros; lia|].
      intros i x Hi Hx Hle. split; [lia|by exists y].
Qed.

Lemma partition_loop_spec vp fuel : forall (a : list A) pi pj,
  (pi < pj)%nat -> (pj < length a)%nat ->
  below vp a (S pi) -> above vp a pj ->
  (pj - pi <= fuel)%nat ->
  exists a' r,
    partition_loop key vp fuel a pi pj = (a', r) /\
    Permutation a' a /\ (pi < r <= pj)%nat /\
    below vp a' r /\ above vp a' r /\
    (forall k, (pj <= k)%nat -> a' !! k = a !! k).
Proof.
  induction fuel as [|fuel IH]; intros a pi pj Hlt Hpj Hbelow Habove Hfuel; [lia|].
  cbn [partition_loop].
  destruct (scan_up_spec vp (drop (S pi) a) (S pi)) as (Hup & Hup_before & Hup_at).
  destruct (scan_down_spec vp a pj) as (Hdown & Hdown_lt & Hdown_between & Hdown_sentinel);
    [lia|].
  set (pi' := scan_up key vp (drop (S pi) a) (S pi)) in *.
  set (pj' := scan_down key vp a pj) in *.
  destruct (lookup_lt_is_Some_2 a pj) as [xj Hxj]; [lia|].
  destruct (lookup_lt_is_Some_2 a pi) as [xi Hxi]; [lia|].
  assert (forall k x, (pi < k < pi')%nat -> a !! k = Some x -> key x < vp) as Hbefore.
  { intros k x Hk Hx. apply (Hup_before (k - S pi)%nat x); [|lia].
    rewrite lookup_drop. by replace (S pi + (k - S pi))%nat with k by lia. }
  assert (pi' <= pj)%nat as Hpi'.
  { destruct (decide (pi' <= pj)%nat) as [|Hgt]; [done|].
    assert (key xj < vp) by (apply (Hbefore pj); [lia|done]).
    assert (vp <= key xj) by (apply (Habove pj); [lia|done]). lia. }
  destruct (lookup_lt_is_Some_2 a pi') as [xi' Hxi']; [lia|].
  assert (vp <= key xi') as Hxi'_ge.
  { apply Hup_at. rewrite lookup_drop. by replace (S pi + (pi' - S pi))%nat with pi' by lia. }
  destruct (Hdown_sentinel pi xi) as (Hpj' & xj' & Hxj' & Hxj'_le);
    [lia|done|apply (Hbelow pi); [lia|done]|].
  specialize (Hdown_lt ltac:(lia)).
  destruct (Nat.leb_spec pj' pi') as [Hbreak|Hgo].
  - exists a, pi'. split_and!; [done|done|lia|lia| | |done].
    + intros k x Hk Hx. destruct (decide (k <= pi)%nat); [apply (Hbelow k); [lia|done]|].
      assert (key x < vp) by (apply (Hbefore k); [lia|done]). lia.
    + intros k x Hk Hx. destruct (decide (k = pi')) as [->|Hne]; [congruence|].
      destruct (decide (pj <= k)%nat); [apply (Habove k); [lia|done]|].
      destruct (Hdown_between k) as (y & Hy & Hgt); [lia|]. rewrite Hy in Hx.
      injection Hx as <-. lia.
  - destruct (IH (swap pi' pj' a) pi' pj') as (a' & r & Hloop & Hperm & Hr & Hb & Ha & Hsame).
    + lia.
    + rewrite length_swap. lia.
    + intros k x Hk Hx. destruct (decide (k = pi')) as [->|Hne].
      * rewrite (lookup_swap_l pi' pj' a xi' xj') in Hx by done. injection Hx as <-. done.
      * rewrite lookup_swap_ne in Hx by lia.
        destruct (decide (k <= pi)%nat); [apply (Hbelow k); [lia|done]|].
        assert (key x < vp) by (apply (Hbefore k); [lia|done]). lia.
    + intros k x Hk Hx. destruct (decide (k = pj')) as [->|Hne].
      * rewrite (lookup_swap_r pi' pj' a xi' xj') in Hx by done. injection Hx as <-. done.
      * rewrite lookup_swap_ne in Hx by lia.
        destruct (decide (pj <= k)%nat); [apply (Habove k); [lia|done]|].
        destruct (Hdown_between k) as (y & Hy & Hgt); [lia|]. rewrite Hy in Hx.
        injection Hx as <-. lia.
    + lia.
    + exists a', r. split_and!; [done| |lia|lia|done|done|].
      * by rewrite Hperm, swap_perm.
      * intros k Hk. rewrite Hsame by lia. apply lookup_swap_ne; lia.
Qed.

Lemma swap_if_less_spec i j (a : list A) x y :
  i <> j -> a !! i = Some x -> a !! j = Some y ->
  exists x' y',
    swap_if_less key i j a !! i = Some x' /\
    swap_if_less key i j a !! j = Some y' /\
    key y' <= key x' /\
    (x' = x /\ y' = y \/ x' = y /\ y' = x) /\
    (forall k, k <> i -> k <> j -> swap_if_less key i j a !! k = a !! k) /\
    Permutation (swap_if_less key i j a) a.
Proof.
  intros Hne Hi Hj. unfold swap_if_less. rewrite Hi, Hj.
  destruct (Z.ltb_spec (key x) (key y)) as [Hlt|Hge].
  - exists y, x. split_and!.
    + by apply (lookup_swap_l i j a x y).
    + by apply (lookup_swap_r i j a x y).
    + lia.
    + by right.
    + intros k Hki Hkj. by apply lookup_swap_ne.
    + apply swap_perm.
  - exists x, y. split_and!; try done. by left.
Qed.

(** The three comparisons before a partition put the median of the first,
    the middle and the last key in the middle. *)
Lemma median_of_three (a : list A) pm pr :
  (0 < pm)%nat -> (pm < pr)%nat -> (pr < length a)%nat ->
  exists x0 xm xr,
    let a3 := swap_if_less key pm 0 (swap_if_less key pr pm (swap_if_less key pm 0 a)) in
    a3 !! 0%nat = Some x0 /\ a3 !! pm = Some xm /\ a3 !! pr = Some xr /\
    key x0 <= key xm <= key xr /\
    Permutation a3 a.
Proof.
  intros H0 Hm Hr.
  destruct (lookup_lt_is_Some_2 a 0) as [y0 Hy0]; [lia|].
  destruct (lookup_lt_is_Some_2 a pm) as [ym Hym]; [lia|].
  destruct (lookup_lt_is_Some_2 a pr) as [yr Hyr]; [lia|].
  destruct (swap_if_less_spec pm 0 a ym y0) as (m1 & z1 & Hm1 & Hz1 & Hle1 & Hc1 & Hk1 & Hp1);
    [lia|done|done|].
  set (a1 := swap_if_less key pm 0 a) in *.
  assert (a1 !! pr = Some yr) as Hr1 by (rewrite Hk1 by lia; done).
  destruct (swap_if_less_spec pr pm a1 yr m1) as (r2 & m2 & Hr2 & Hm2 & Hle2 & Hc2 & Hk2 & Hp2);
    [lia|done|done|].
  set (a2 := swap_if_less key pr pm a1) in *.
  assert (a2 !! 0%nat = Some z1) as Hz2 by (rewrite Hk2 by lia; done).
  destruct (swap_if_less_spec pm 0 a2 m2 z1) as (m3 & z3 & Hm3 & Hz3 & Hle3 & Hc3 & Hk3 & Hp3);
    [lia|done|done|].
  set (a3 := swap_if_less key pm 0 a2) in *.
  assert (a3 !! pr = Some r2) as Hr3 by (rewrite Hk3 by lia; done).
  exists z3, m3, r2. cbn zeta. split_and!; try done.
  - destruct Hc1 as [[-> ->]|[-> ->]], Hc2 as [[-> ->]|[-> ->]], Hc3 as [[-> ->]|[-> ->]]; lia.
  - by rewrite Hp3, Hp2, Hp1.
Qed.

(** A partition: the pivot is where the index says, nothing before it has a
    greater key and nothing after it a smaller one. *)
Lemma partition_spec (a : list A) :
  (18 <= length a)%nat ->
  exists a' r pivot,
    partition key a = (a', r) /\
    Permutation a' a /\
    a' !! r = Some pivot /\
    Forall (fun x => key x <= key pivot) (take r a') /\
    Forall (fun x => key pivot <= key x) (drop (S r) a').
Proof.
  intros Hlen. unfold partition.
  set (pr := (length a - 1)%nat). set (pm := (pr / 2)%nat).
  assert (8 <= pm /\ pm < pr - 1)%nat as [Hpm8 Hpm].
  { subst pm. split.
    - apply (Nat.div_le_lower_bound pr 2 8); lia.
    - apply Nat.Div0.div_lt_upper_bound; lia. }
  destruct (median_of_three a pm pr) as (x0 & xm & xr & H0 & Hm & Hr & Hkeys & Hperm3);
    [lia|lia|lia|].
  cbn zeta in H0, Hm, Hr, Hperm3.
  set (a3 := swap_if_less key pm 0 (swap_if_less key pr pm (swap_if_less key pm 0 a))) in *.
  rewrite Hm.
  assert (length a3 = length a) as Hlen3 by by rewrite Hperm3.
  destruct (lookup_lt_is_Some_2 a3 (pr - 1)) as [xq Hq]; [lia|].
  set (a4 := swap pm (pr - 1) a3).
  assert (length a4 = length a) as Hlen4 by (subst a4; by rewrite length_swap).
  assert (a4 !! (pr - 1)%nat = Some xm) as Hq4 by by apply (lookup_swap_r pm (pr - 1) a3 xm xq).
  assert (a4 !! 0%nat = Some x0) as H04 by (subst a4; rewrite lookup_swap_ne by lia; done).
  assert (a4 !! pr = Some xr) as Hr4 by (subst a4; rewrite lookup_swap_ne by lia; done).
  destruct (partition_loop_spec (key xm) (length a4) a4 0 (pr - 1))
    as (a5 & r & Hloop & Hperm5 & Hr5 & Hbelow & Habove & Hsame); [lia|lia| | |lia|].
  { intros k x Hk Hx. assert (k = 0%nat) as -> by lia. rewrite H04 in Hx.
    injection Hx as <-. lia. }
  { intros k x Hk Hx. destruct (decide (k = (pr - 1)%nat)) as [->|Hne1].
    - rewrite Hq4 in Hx. injection Hx as <-. lia.
    - destruct (decide (k = pr)) as [->|Hne2].
      + rewrite Hr4 in Hx. injection Hx as <-. lia.
      + apply lookup_lt_Some in Hx. lia. }
  rewrite Hloop.
  assert (length a5 = length a) as Hlen5 by by rewrite Hperm5.
  assert (a5 !! (pr - 1)%nat = Some xm) as Hq5 by (rewrite Hsame by lia; done).
  destruct (lookup_lt_is_Some_2 a5 r) as [z Hz]; [lia|].
  assert (key xm <= key z) as Hz_ge by (apply (Habove r); [lia|done]).
  exists (swap r (pr - 1) a5), r, xm. split_and!.
  - done.
  - subst a4. by rewrite swap_perm, Hperm5, swap_perm.
  - by apply (lookup_swap_l r (pr - 1) a5 z xm).
  - apply Forall_lookup. intros k x [Hx Hk]%lookup_take_Some.
    rewrite lookup_swap_ne in Hx by lia. by apply (Hbelow k).
  - apply Forall_lookup. intros k x. rewrite lookup_drop. intros Hx.
    destruct (decide ((S r + k)%nat = (pr - 1)%nat)) as [Heq|Hne].
    + rewrite Heq, (lookup_swap_r r (pr - 1) a5 z xm) in Hx by done. by injection Hx as <-.
    + rewrite lookup_swap_ne in Hx by lia. apply (Habove (S r + k)%nat); [lia|done].
Qed.

End QuicksortFacts.

Section SortFacts.
Context {A : Type} (key : A -> Timestamp) (heapsort : list A -> list A).
Hypothesis heapsort_perm : forall l, Permutation (heapsort l) l.
Hypothesis heapsort_sorted : forall l, sorted_by key (heapsort l).

Lemma partition_pieces (a' : list A) r pivot :
  a' !! r = Some pivot ->
  take 1 (drop r a') = [pivot] /\ take r a' ++ [pivot] ++ drop (S r) a' = a'.
Proof.
  intros Hr. split.
  - by rewrite (drop_S a' pivot r Hr).
  - cbn [app]. by rewrite <-(drop_S a' pivot r Hr), take_drop.
Qed.

Lemma aquicksort_from_perm fuel : forall popped cdepth a,
  Permutation (aquicksort_from key heapsort fuel popped cdepth a) a.
Proof.
  induction fuel as [|fuel IH]; intros popped cdepth a; cbn [aquicksort_from].
  - apply insertion_sort_perm.
  - destruct (popped && (cdepth <? 0)); [apply heapsort_perm|].
    destruct (Nat.ltb_spec SMALL_QUICKSORT (length a - 1)) as [Hbig|Hsmall];
      [|apply insertion_sort_perm].
    unfold SMALL_QUICKSORT in Hbig.
    destruct (partition_spec key a) as (a' & r & pivot & -> & Hperm & Hr & _); [lia|].
    destruct (partition_pieces a' r pivot Hr) as [-> Hpieces].
    etrans; [|exact Hperm].
    assert (forall p1 d1 p2 d2,
              Permutation (aquicksort_from key heapsort fuel p1 d1 (take r a') ++ [pivot]
                           ++ aquicksort_from key heapsort fuel p2 d2 (drop (S r) a')) a')
      as Hboth.
    { intros p1 d1 p2 d2. rewrite !IH. by rewrite Hpieces. }
    destruct (length (take r a') <? length (drop (S r) a'))%nat; apply Hboth.
Qed.

Lemma aquicksort_from_sorted fuel : forall popped cdepth a,
  sorted_by key (aquicksort_from key heapsort fuel popped cdepth a).
Proof.
  induction fuel as [|fuel IH]; intros popped cdepth a; cbn [aquicksort_from].
  - apply insertion_sort_sorted.
  - destruct (popped && (cdepth <? 0)); [apply heapsort_sorted|].
    destruct (Nat.ltb_spec SMALL_QUICKSORT (length a - 1)) as [Hbig|Hsmall];
      [|apply insertion_sort_sorted].
    unfold SMALL_QUICKSORT in Hbig.
    destruct (partition_spec key a) as (a' & r & pivot & -> & Hperm & Hr & Hleft & Hright);
      [lia|].
    destruct (partition_pieces a' r pivot Hr) as [-> _].
    assert (forall p1 d1 p2 d2,
              sorted_by key (aquicksort_from key heapsort fuel p1 d1 (take r a') ++ [pivot]
                             ++ aquicksort_from key heapsort fuel p2 d2 (drop (S r) a')))
      as Hsorted.
    { intros p1 d1 p2 d2. apply sorted_by_app_intro; [apply IH| |].
      - apply sorted_by_cons. split; [|apply IH].
        by rewrite (aquicksort_from_perm fuel p2 d2 (drop (S r) a')).
      - apply Forall_forall. intros x Hx.
        rewrite (aquicksort_from_perm fuel p1 d1 (take r a')) in Hx.
        rewrite Forall_forall in Hleft. specialize (Hleft x Hx).
        constructor; [done|].
        rewrite (aquicksort_from_perm fuel p2 d2 (drop (S r) a')).
        eapply Forall_impl; [exact Hright|]. intros y Hy. simpl in *. lia. }
    destruct (length (take r a') <? length (drop (S r) a'))%nat; apply Hsorted.
Qed.

(** The fuel never runs out: the parts of a partition are shorter than the
    segment, so any fuel from its length on gives the same result. *)
Lemma aquicksort_from_fuel fuel : forall fuel' popped cdepth a,
  (length a <= fuel)%nat -> (length a <= fuel')%nat ->
  aquicksort_from key heapsort fuel popped cdepth a
  = aquicksort_from key heapsort fuel' popped cdepth a.
Proof.
  assert (forall fuel0 popped cdepth,
            aquicksort_from key heapsort fuel0 popped cdepth [] = []) as Hnil.
  { intros [|fuel0] popped cdepth; cbn [aquicksort_from]; [done|].
    destruct (popped && (cdepth <? 0)); [|done].
    apply Permutation_nil_r, heapsort_perm. }
  induction fuel as [|fuel IH]; intros fuel' popped cdepth a Hfuel Hfuel'.
  { destruct a; [by rewrite !Hnil|simpl in Hfuel; lia]. }
  destruct fuel' as [|fuel'].
  { destruct a; [by rewrite !Hnil|simpl in Hfuel'; lia]. }
  cbn [aquicksort_from].
  destruct (popped && (cdepth <? 0)); [done|].
  destruct (Nat.ltb_spec SMALL_QUICKSORT (length a - 1)) as [Hbig|Hsmall]; [|done].
  unfold SMALL_QUICKSORT in Hbig.
  destruct (partition_spec key a) as (a' & r & pivot & -> & Hperm & Hr & _); [lia|].
  apply lookup_lt_Some in Hr. apply Permutation_length in Hperm.
  assert (length (take r a') <= fuel /\ length (take r a') <= fuel')%nat as [Hl Hl'].
  { rewrite length_take. lia. }
  assert (length (drop (S r) a') <= fuel /\ length (drop (S r) a') <= fuel')%nat as [Hd Hd'].
  { rewrite length_drop. lia. }
  destruct (length (take r a') <? length (drop (S r) a'))%nat;
    by rewrite (IH fuel' _ _ (take r a') Hl Hl'), (IH fuel' _ _ (drop (S r) a') Hd Hd').
Qed.

(** A segment of at most seventeen rows is sorted by insertion. *)
Lemma aquicksort_small (a : list A) :
  (length a <= 17)%nat -> aquicksort key heapsort a = insertion_sort key a.
Proof.
  intros Hlen. unfold aquicksort. destruct (length a) as [|n] eqn:Hn; [done|].
  cbn [aquicksort_from].
  assert ((Z.log2 (Z.of_nat (S n)) * 2 <? 0) = false) as ->.
  { apply Z.ltb_ge. pose proof (Z.log2_nonneg (Z.of_nat (S n))). lia. }
  cbn [andb]. rewrite Hn.
  by destruct (Nat.ltb_spec SMALL_QUICKSORT (S n - 1)); [unfold SMALL_QUICKSORT in *; lia|].
Qed.

End SortFacts.

(** [sort_values] as pandas calls it by default: numpy's quicksort, with
    whatever its heapsort does when the depth budget is used up. *)
Definition numpy_sorter (heapsort : Sorter) : Sorter :=
  {| sort_rows A key l := aquicksort key (sort_rows (Sorter := heapsort) key) l;
     sort_rows_perm A key l :=
       aquicksort_from_perm key _ (sort_rows_perm A key) _ _ _ l;
     sort_rows_sorted A key l :=
       aquicksort_from_sorted key _ (sort_rows_perm A key) (sort_rows_sorted A key) _ _ _ l |}.

(** A sorted frame of up to seventeen rows comes back as it is: it is sorted
    by insertion. *)
Lemma numpy_sorter_keeps_small (heapsort : Sorter) {A} (key : A -> Timestamp) (l : list A) :
  (length l <= 17)%nat -> sorted_by key l -> sort_rows (Sorter := numpy_sorter heapsort) key l = l.
Proof.
  intros Hlen Hsorted. cbn [sort_rows numpy_sorter].
  rewrite aquicksort_small by done. by apply insertion_sort_keeps.
Qed.

End NumpyFacts.

(** ** The [Py] monad and the heap *)

Module ModelFacts.
Import Python Pandas Model.

Lemma Py_bind_ok {A B} (m : Py A) (f : A -> Py B) w a w' :
  m w = (Ok a, w') -> (m ≫= f) w = f a w'.
Proof. intros Hm. unfold mbind, Py_bind. by rewrite Hm. Qed.

Lemma Py_bind_raise {A B} (m : Py A) (f : A -> Py B) w e w' :
  m w = (Raise e, w') -> (m ≫= f) w = (Raise e, w').
Proof. intros Hm. unfold mbind, Py_bind. by rewrite Hm. Qed.

Lemma Py_bind_ext {A B} (m : Py A) (f g : A -> Py B) w :
  (forall a w', f a w' = g a w') -> (m ≫= f) w = (m ≫= g) w.
Proof.
  intros Hfg. unfold mbind, Py_bind. destruct (m w) as [[a|e] w']; [apply Hfg|done].
Qed.

Lemma lift_bind {A B} (r : result A) (f : A -> Py B) w :
  (lift r ≫= f) w = match r with Ok a => f a w | Raise e => (Raise e, w) end.
Proof. by destruct r. Qed.

Lemma deref_ok w r o : heap w !! r = Some o -> deref r w = (Ok o, w).
Proof. intros Hr. unfold deref. by rewrite Hr. Qed.

(** A world whose heap has grown at its end: what was there is still there,
    and nothing was requested or downloaded. *)
Definition extends (w w' : world) : Prop :=
  requests_log w' = requests_log w /\
  downloads w' = downloads w /\
  exists new, heap w' = heap w ++ new.

Lemma extends_lookup w w' r o : extends w w' -> heap w !! r = Some o -> heap w' !! r = Some o.
Proof. intros (_ & _ & new & ->) Hr. by apply lookup_app_l_Some. Qed.

Lemma extends_refl w : extends w w.
Proof. split_and!; [done|done|]. exists []. by rewrite (right_id_L [] (++)). Qed.

Lemma extends_trans w1 w2 w3 : extends w1 w2 -> extends w2 w3 -> extends w1 w3.
Proof.
  intros (Hl1 & Hd1 & n1 & Hh1) (Hl2 & Hd2 & n2 & Hh2). split_and!; [congruence|congruence|].
  exists (n1 ++ n2). by rewrite Hh2, Hh1, (assoc_L (++)).
Qed.

(** [returns m w d]: run in [w], the computation [m] only adds objects to the
    heap, and it raises what [d] raises or returns a reference to the object
    [d] gives. *)
Definition returns (m : Py ref) (w : world) (d : result obj) : Prop :=
  exists res w',
    m w = (res, w') /\ extends w w' /\
    match d with
    | Ok o => exists n, res = Ok n /\ heap w' !! n = Some o
    | Raise e => res = Raise e
    end.

Lemma returns_alloc o w : returns (alloc o) w (Ok o).
Proof.
  eexists _, _. split; [done|]. split.
  - split_and!; [done|done|]. by eexists.
  - eexists. split; [done|]. simpl. by apply list_lookup_middle.
Qed.

Lemma returns_lift_raise e w : returns (lift (Raise e)) w (Raise e).
Proof. eexists _, _. split; [done|]. split; [apply extends_refl|done]. Qed.

Lemma returns_bind (m : Py ref) (f : ref -> Py ref) w d (g : obj -> result obj) :
  returns m w d ->
  (forall n w' o, extends w w' -> heap w' !! n = Some o -> returns (f n) w' (g o)) ->
  returns (m ≫= f) w (d ≫= g).
Proof.
  intros (res & w' & Hm & Hext & Hd) Hf. destruct d as [o|e].
  - destruct Hd as (n & -> & Hn).
    destruct (Hf n w' o Hext Hn) as (res2 & w'' & Hfn & Hext2 & Hg).
    exists res2, w''. split; [by rewrite (Py_bind_ok _ _ _ _ _ Hm)|].
    split; [by eapply extends_trans|done].
  - subst res. exists (Raise e), w'. by rewrite (Py_bind_raise _ _ _ _ _ Hm).
Qed.

Lemma returns_deref r w o (f : obj -> Py ref) d :
  heap w !! r = Some o -> returns (f o) w d -> returns (deref r ≫= f) w d.
Proof.
  intros Hr (res & w' & Hf & Hext & Hd). exists res, w'.
  by rewrite (Py_bind_ok _ _ _ _ _ (deref_ok _ _ _ Hr)).
Qed.

Lemma returns_lift {A} (r : result A) (f : A -> Py ref) w (g : A -> result obj) :
  (forall a, r = Ok a -> returns (f a) w (g a)) -> returns (lift r ≫= f) w (r ≫= g).
Proof.
  intros Hf. destruct r as [a|e]; [by apply Hf|].
  eexists _, _. split; [done|]. split; [apply extends_refl|done].
Qed.

Section FramesFacts.
Context {srt : Sorter}.

Lemma returns_sort_values r w o :
  heap w !! r = Some o -> returns (df_sort_values r) w (obj_sort_values o).
Proof.
  intros Hr. unfold df_sort_values. apply (returns_deref _ _ _ _ _ Hr).
  destruct (obj_sort_values o) as [sorted|e];
    [apply (returns_lift (Ok sorted) alloc w Ok)|apply (returns_lift (Raise e) alloc w Ok)];
    intros o' _; apply returns_alloc.
Qed.

Lemma returns_reset_index r w o :
  heap w !! r = Some o -> returns (df_reset_index r) w (Ok (obj_reset_index o)).
Proof.
  intros Hr. unfold df_reset_index. apply (returns_deref _ _ _ _ _ Hr). apply returns_alloc.
Qed.

(** [pd.merge_asof] on the two objects. *)
Definition obj_merge_asof (l r : obj) : result obj :=
  match l, r with
  | SentDF ldf, PriceDF rdf => MergedDF <$> merge_asof_date ldf rdf
  | _, _ => Raise BadReference
  end.

Lemma returns_merge_asof l r w lo ro :
  heap w !! l = Some lo -> heap w !! r = Some ro ->
  returns (pd_merge_asof l r) w (obj_merge_asof lo ro).
Proof.
  intros Hl Hr. unfold pd_merge_asof.
  apply (returns_deref _ _ _ _ _ Hl), (returns_deref _ _ _ _ _ Hr).
  destruct lo as [ldf| |]; try apply returns_lift_raise.
  destruct ro as [|rdf|]; try apply returns_lift_raise. simpl.
  destruct (merge_asof_date ldf rdf) as [merged|e];
    [apply (returns_lift (Ok merged) (fun m => alloc (MergedDF m)) w (fun m => Ok (MergedDF m)))
    |apply (returns_lift (Raise e) (fun m => alloc (MergedDF m)) w (fun m => Ok (MergedDF m)))];
    intros m _; apply returns_alloc.
Qed.

End FramesFacts.

End ModelFacts.

(** ** Aligner *)

Module AlignerFacts.
Import Python Pandas Model Aligner PandasFacts NumpyFacts ModelFacts.

Section MergeFacts.
Context {srt : Sorter}.

(** The rows [merge_df] computes from the rows of its two frames. *)
Definition merged_rows (S : list SentimentPoint) (P : list PricePoint) : list MergedPoint :=
  map (fun s => joined s (asof_lookup p_date (s_date s) (sort_rows p_date P)))
      (sort_rows s_date S).

Definition merged_columns (ldf : DataFrame SentimentPoint) (rdf : DataFrame PricePoint)
  : list string :=
  columns ldf ++ List.filter (fun c => negb (String.eqb c "date")) (columns rdf).

(** What [merge_df] makes of the two objects it is called on. *)
Definition merge_df_obj (sent price : obj) : result obj :=
  l ← (sorted ← obj_sort_values sent; Ok (obj_reset_index sorted));
  r ← (sorted ← obj_sort_values price; Ok (obj_reset_index sorted));
  obj_merge_asof l r.

(** One call of [merge_df]: it adds objects to the heap, changes none, and
    what it returns or raises is a function of the two objects alone. *)
Lemma merge_df_returns w sent_df price_df sent price :
  heap w !! sent_df = Some sent -> heap w !! price_df = Some price ->
  returns (merge_df sent_df price_df) w (merge_df_obj sent price).
Proof.
  intros Hs Hp. unfold merge_df, merge_df_obj.
  apply returns_bind.
  { apply returns_bind; [by apply returns_sort_values|].
    intros n w' o _ Hn. by apply returns_reset_index. }
  intros l w1 lo Hext1 Hl. apply returns_bind.
  { apply returns_bind; [apply returns_sort_values; by eapply extends_lookup|].
    intros n w' o _ Hn. by apply returns_reset_index. }
  intros r w2 ro Hext2 Hr.
  destruct (returns_merge_asof l r w2 lo ro (extends_lookup _ _ _ _ Hext2 Hl) Hr)
    as (res & w3 & Hm & Hext3 & Hd).
  exists res, w3. split; [|done].
  unfold mbind, Py_bind. rewrite Hm. by destruct res.
Qed.

Lemma merge_df_obj_frames ldf rdf :
  has_column "date" ldf = true -> has_column "date" rdf = true ->
  merge_df_obj (SentDF ldf) (PriceDF rdf)
  = Ok (MergedDF (mkDataFrame (merged_columns ldf rdf) (merged_rows (rows ldf) (rows rdf)))).
Proof.
  intros Hlc Hrc. unfold merge_df_obj. cbn [obj_sort_values].
  unfold sort_values_date. rewrite Hlc, Hrc.
  cbn [fmap result_fmap mbind result_bind obj_reset_index reset_index_drop obj_merge_asof
       columns rows].
  unfold merge_asof_date, has_column, reset_index_drop in *. cbn [columns rows].
  rewrite Hlc, Hrc. cbn [andb].
  rewrite merge_asof_rows_sorted by apply sort_rows_sorted. reflexivity.
Qed.

(** The contract view: [merge] never raises and yields [merged_rows]. *)
Lemma merge_eq S P : merge S P = Ok (merged_rows S P).
Proof.
  unfold merge.
  destruct (merge_df_returns (mkWorld [] [] [sent_frame S; price_frame P]) 0%nat 1%nat
              (sent_frame S) (price_frame P) eq_refl eq_refl)
    as (res & w' & -> & _ & Hd).
  unfold sent_frame, price_frame in Hd. rewrite merge_df_obj_frames in Hd by done.
  by destruct Hd as (n & -> & ->).
Qed.

(** [close] is what a backward as-of join attaches for the instant [t]: the
    [Close] of a price point at or before [t] that no other such point is
    later than, or [nan] when every price point is later than [t]. *)
Definition asof_close (P : list PricePoint) (t : Timestamp) (close : float) : Prop :=
  (exists p, p ∈ P /\ p_date p <= t /\
             (forall q, q ∈ P -> p_date q <= t -> p_date q <= p_date p) /\
             close = p_Close p)
  \/ ((forall q, q ∈ P -> t < p_date q) /\ close = nan).

(** [m] is the merged row of the sentiment point [s]. *)
Definition row_of (P : list PricePoint) (s : SentimentPoint) (m : MergedPoint) : Prop :=
  m_date m = s_date s /\ m_polarity m = s_polarity s /\ asof_close P (s_date s) (m_Close m).

Lemma elem_of_sort_rows {A} (key : A -> Timestamp) (x : A) l : x ∈ sort_rows key l <-> x ∈ l.
Proof. by rewrite (sort_rows_perm A key l). Qed.

Lemma sort_rows_nil {A} (key : A -> Timestamp) : sort_rows key [] = [].
Proof. apply Permutation_nil_r, sort_rows_perm. Qed.

Lemma joined_row_of P s :
  row_of P s (joined s (asof_lookup p_date (s_date s) (sort_rows p_date P))).
Proof.
  split; [done|]. split; [done|]. unfold asof_close. simpl.
  destruct (asof_lookup p_date (s_date s) (sort_rows p_date P)) as [p|] eqn:Hlook.
  - left. exists p.
    apply asof_lookup_Some in Hlook as (Hin & Hle & Hmax); [|apply sort_rows_sorted].
    rewrite elem_of_sort_rows in Hin. repeat split; try done.
    intros q Hq. apply Hmax. by rewrite elem_of_sort_rows.
  - right. split; [|done]. intros q Hq.
    eapply asof_lookup_None; [apply sort_rows_sorted|exact Hlook|].
    by rewrite elem_of_sort_rows.
Qed.

(** C1 (join correctness): [merge_df] returns one row per sentiment point, in
    the order [sort_values] gives the sentiment points; the row of a point [s]
    carries its date and polarity, and its [Close] is that of a price point
    with the greatest date at or before the date of [s], or [nan] when no price
    point is that early.  Every sentiment point of the input has such a row. *)
Theorem merge_df_join_correct (S : list SentimentPoint) (P : list PricePoint) :
  exists merged,
    merge S P = Ok merged /\
    Forall2 (row_of P) (sort_rows s_date S) merged /\
    forall s, s ∈ S -> exists m, m ∈ merged /\ row_of P s m.
Proof.
  exists (merged_rows S P). split; [apply merge_eq|]. unfold merged_rows. split.
  - induction (sort_rows s_date S) as [|s rest IH]; constructor; [|done].
    apply joined_row_of.
  - intros s Hs. rewrite <-(elem_of_sort_rows s_date) in Hs.
    eexists. split; [|apply (joined_row_of P s)].
    apply list_elem_of_In.
    apply (in_map (fun s => joined s (asof_lookup p_date (s_date s) (sort_rows p_date P)))).
    by apply list_elem_of_In.
Qed.

(** C2 (cardinality): the frame [merge_df] returns has as many rows as the
    sentiment frame, whatever the prices; for an empty sentiment frame it is
    empty. *)
Theorem merge_df_cardinality (S : list SentimentPoint) (P : list PricePoint) :
  (exists merged, merge S P = Ok merged /\ length merged = length S) /\
  merge [] P = Ok [].
Proof.
  split.
  - exists (merged_rows S P). split; [apply merge_eq|].
    unfold merged_rows. rewrite length_map. apply Permutation_length, sort_rows_perm.
  - rewrite merge_eq. unfold merged_rows.
    by rewrite sort_rows_nil.
Qed.

(** C3 (empty prices): with an empty price frame [merge_df] raises nothing
    and returns one row per sentiment point, each with [nan] for [Close]. *)
Theorem merge_df_empty_prices (S : list SentimentPoint) :
  exists merged,
    merge S [] = Ok merged /\
    length merged = length S /\
    Forall (fun m => m_Close m = nan) merged.
Proof.
  exists (merged_rows S []). split; [apply merge_eq|]. unfold merged_rows.
  rewrite sort_rows_nil. split.
  - rewrite length_map. apply Permutation_length, sort_rows_perm.
  - apply Forall_forall. intros m [s [<- _]]%list_elem_of_In%in_map_iff. done.
Qed.





(** A sorted frame comes back from [sort_values] as it is when the sorter
    keeps sorted frames, and under any sorter when no two rows share a date. *)
Lemma sort_rows_sorted_id {A} (key : A -> Timestamp) l :
  KeepsSorted srt \/ NoDup (map key l) -> sorted_by key l -> sort_rows key l = l.
Proof.
  intros [Hkeep|Hnd] Hs; [by apply Hkeep|]. symmetry.
  apply (sorted_by_unique key l); [done|done|apply sort_rows_sorted|].
  symmetry. apply sort_rows_perm.
Qed.


(** C8 (purity): a call of [merge_df] only adds objects to the heap: it
    changes no object that was there, and sends no request.  Called in two
    worlds on references to equal frames, it raises the same exception in both
    or returns references to equal frames. *)
Theorem merge_df_pure (w1 w2 : world) (sent1 price1 sent2 price2 : ref) (sent price : obj) :
  heap w1 !! sent1 = Some sent -> heap w1 !! price1 = Some price ->
  heap w2 !! sent2 = Some sent -> heap w2 !! price2 = Some price ->
  exists res1 w1' res2 w2',
    merge_df sent1 price1 w1 = (res1, w1') /\
    merge_df sent2 price2 w2 = (res2, w2') /\
    extends w1 w1' /\ extends w2 w2' /\
    match res1, res2 with
    | Ok m1, Ok m2 => exists merged, heap w1' !! m1 = Some merged /\ heap w2' !! m2 = Some merged
    | Raise e1, Raise e2 => e1 = e2
    | _, _ => False
    end.
Proof.
  intros Hs1 Hp1 Hs2 Hp2.
  destruct (merge_df_returns w1 sent1 price1 sent price Hs1 Hp1) as (res1 & w1' & Hm1 & He1 & Hd1).
  destruct (merge_df_returns w2 sent2 price2 sent price Hs2 Hp2) as (res2 & w2' & Hm2 & He2 & Hd2).
  exists res1, w1', res2, w2'. split_and!; try done.
  destruct (merge_df_obj sent price) as [merged|e].
  - destruct Hd1 as (m1 & -> & Hm1'), Hd2 as (m2 & -> & Hm2'). by exists merged.
  - by subst.
Qed.

End MergeFacts.

(** *** Concrete frames *)

(** The example of the specification, with [t0 = 1000] and insertion sort. *)
Example merge_spec_example :
  merge [mkSentimentPoint 1000 0.25; mkSentimentPoint 1010 (-0.125)]
        [mkPricePoint 995 100; mkPricePoint 1005 105]
  = Ok [mkMergedPoint 1000 0.25 100; mkMergedPoint 1010 (-0.125) 105].
Proof. reflexivity. Qed.

(** Sentiment before every price: no match, [nan]. *)
Example merge_predates_example :
  merge [mkSentimentPoint 990 0.5] [mkPricePoint 995 100; mkPricePoint 1005 105]
  = Ok [mkMergedPoint 990 0.5 nan].
Proof. reflexivity. Qed.

Lemma merge_df_join_correct_witness :
  exists merged,
    merge [mkSentimentPoint 1010 (-0.125); mkSentimentPoint 1000 0.25]
          [mkPricePoint 1005 105; mkPricePoint 995 100] = Ok merged /\
    Forall2 (row_of [mkPricePoint 1005 105; mkPricePoint 995 100])
      (sort_rows s_date [mkSentimentPoint 1010 (-0.125); mkSentimentPoint 1000 0.25]) merged /\
    forall s, s ∈ [mkSentimentPoint 1010 (-0.125); mkSentimentPoint 1000 0.25] ->
      exists m, m ∈ merged /\ row_of [mkPricePoint 1005 105; mkPricePoint 995 100] s m.
Proof. apply merge_df_join_correct. Defined.

Lemma merge_df_cardinality_witness :
  (exists merged,
     merge [mkSentimentPoint 1010 (-0.125); mkSentimentPoint 1000 0.25] [mkPricePoint 995 100]
     = Ok merged /\ length merged = 2%nat) /\
  merge [] [mkPricePoint 995 100] = Ok [].
Proof.
  apply (merge_df_cardinality [mkSentimentPoint 1010 (-0.125); mkSentimentPoint 1000 0.25]).
Defined.

Lemma merge_df_empty_prices_witness :
  exists merged,
    merge [mkSentimentPoint 1010 (-0.125); mkSentimentPoint 1000 0.25] [] = Ok merged /\
    length merged = 2%nat /\
    Forall (fun m => m_Close m = nan) merged.
Proof.
  apply (merge_df_empty_prices [mkSentimentPoint 1010 (-0.125); mkSentimentPoint 1000 0.25]).
Defined.

(** Two prices dated 10, then one dated 20. *)
Definition tied_prices : list PricePoint :=
  [mkPricePoint 10 10; mkPricePoint 10 20; mkPricePoint 20 30].



(** Nineteen prices in date order, the tenth and the eleventh both dated 100. *)
Definition nineteen_prices : list PricePoint :=
  [mkPricePoint 10 1; mkPricePoint 20 2; mkPricePoint 30 3; mkPricePoint 40 4;
   mkPricePoint 50 5; mkPricePoint 60 6; mkPricePoint 70 7; mkPricePoint 80 8;
   mkPricePoint 90 9; mkPricePoint 100 10; mkPricePoint 100 11; mkPricePoint 110 12;
   mkPricePoint 120 13; mkPricePoint 130 14; mkPricePoint 140 15; mkPricePoint 150 16;
   mkPricePoint 160 17; mkPricePoint 170 18; mkPricePoint 180 19].



(** Why [sort_values] has to return the sorted frame as it is for the last of
    two equal dates to win: numpy's quicksort partitions a frame of nineteen
    rows around its tenth row, and the scan from the right stops at the
    eleventh, which has the same date: the two change places. *)
Example sort_values_exchanges_tie (heapsort : Sorter) :
  sort_rows (Sorter := numpy_sorter heapsort) p_date nineteen_prices
  = take 9 nineteen_prices
    ++ [mkPricePoint 100 11; mkPricePoint 100 10] ++ drop 11 nineteen_prices.
Proof. vm_compute. reflexivity. Qed.












(** A world with one sentiment frame and one price frame, and the world after
    one call of [merge_df] on them. *)
Definition two_frames : world :=
  mkWorld [] [] [sent_frame [mkSentimentPoint 15 0.5]; price_frame tied_prices].

Lemma merge_df_pure_witness :
  exists res1 w1' res2 w2',
    merge_df 0%nat 1%nat two_frames = (res1, w1') /\
    merge_df 0%nat 1%nat (snd (merge_df 0%nat 1%nat two_frames)) = (res2, w2') /\
    extends two_frames w1' /\ extends (snd (merge_df 0%nat 1%nat two_frames)) w2' /\
    match res1, res2 with
    | Ok m1, Ok m2 => exists merged, heap w1' !! m1 = Some merged /\ heap w2' !! m2 = Some merged
    | Raise e1, Raise e2 => e1 = e2
    | _, _ => False
    end.
Proof.
  apply (merge_df_pure two_frames (snd (merge_df 0%nat 1%nat two_frames)) 0%nat 1%nat 0%nat 1%nat
           (sent_frame [mkSentimentPoint 15 0.5]) (price_frame tied_prices));
    reflexivity.
Defined.

End AlignerFacts.

(** ** Scorer *)

Module ScorerFacts.
Import Python Pandas Model Scorer PandasFacts ModelFacts.

Section ScoreFacts.
Context {srt : Sorter} {blob : TextBlob} {dts : Datetimes}.

(** A raw item as the data model has it: a string for its text and, for its
    timestamp, a number of seconds that pandas can represent. *)
Definition well_formed (entry : RawItem) : Prop :=
  exists txt n, text entry = JStr txt /\ created_utc entry = JInt n /\ in_bounds n = true.

(** [pt] is the point scored from [entry]. *)
Definition scores (entry : RawItem) (pt : SentimentPoint) : Prop :=
  exists txt n,
    text entry = JStr txt /\ created_utc entry = JInt n /\
    pt = mkSentimentPoint (n * 1000000000) (polarity_of txt).

Lemma score_entry_well_formed entry :
  well_formed entry -> exists pt, score_entry entry = Ok pt /\ scores entry pt.
Proof.
  intros (txt & n & Ht & Hc & Hb). eexists. split.
  - unfold score_entry, to_datetime. rewrite Ht, Hc. simpl. by rewrite Hb.
  - by exists txt, n.
Qed.

Lemma score_loop_app data rows pts :
  Forall2 (fun entry pt => score_entry entry = Ok pt) data pts ->
  score_loop data rows = Ok (rows ++ pts).
Proof.
  intros Hall. revert rows. induction Hall as [|entry pt data pts Hpt _ IH]; intros rows; simpl.
  - by rewrite (right_id_L [] (++)).
  - rewrite Hpt. simpl. by rewrite IH, <-(assoc_L (++)).
Qed.

Lemma well_formed_scored data :
  Forall well_formed data ->
  exists pts,
    Forall2 (fun entry pt => score_entry entry = Ok pt) data pts /\ Forall2 scores data pts.
Proof.
  induction 1 as [|entry data Hwf _ (pts & Hpts & Hsc)]; [by exists []|].
  destruct (score_entry_well_formed entry Hwf) as (pt & Hpt & Hs).
  exists (pt :: pts). by split; constructor.
Qed.

(** When every entry scores, [analyze_sentiments] returns what sorting the
    frame built from the scored rows gives. *)
Lemma analyze_sentiments_returns data pts w :
  Forall2 (fun entry pt => score_entry entry = Ok pt) data pts ->
  returns (analyze_sentiments data) w (obj_sort_values (SentDF (DataFrame_of_records pts))).
Proof.
  intros Hall. unfold analyze_sentiments. rewrite (score_loop_app data [] pts Hall). simpl.
  apply (returns_lift (Ok pts) _ w
           (fun rows => obj_sort_values (SentDF (DataFrame_of_records rows)))).
  intros rows [= <-].
  apply (returns_bind (alloc (SentDF (DataFrame_of_records pts))) df_sort_values w
           (Ok (SentDF (DataFrame_of_records pts))) obj_sort_values).
  - apply returns_alloc.
  - intros n w' o _ Hn. by apply returns_sort_values.
Qed.

(** C5, as amended (one point per item, sorted): for a non-empty sequence of
    well-formed raw items, empty texts included, [analyze_sentiments] returns a
    new frame with the columns [date] and [polarity] whose rows are the points
    scored from the items, one per item, in non-decreasing order of [date]. *)
Theorem analyze_sentiments_scores_all (data : list RawItem) (w : world) :
  data <> [] ->
  Forall well_formed data ->
  exists df w' rows pts,
    analyze_sentiments data w = (Ok df, w') /\
    extends w w' /\
    heap w' !! df = Some (SentDF (mkDataFrame ["date"; "polarity"] rows)) /\
    Forall2 scores data pts /\
    Permutation rows pts /\
    length rows = length data /\
    sorted_by s_date rows.
Proof.
  intros Hne Hwf. destruct (well_formed_scored data Hwf) as (pts & Hpts & Hsc).
  destruct (analyze_sentiments_returns data pts w Hpts) as (res & w' & Hrun & Hext & Hd).
  destruct pts as [|pt pts]; [apply Forall2_nil_inv_r in Hpts; congruence|].
  cbn in Hd. destruct Hd as (df & -> & Hdf).
  exists df, w', (sort_rows s_date (pt :: pts)), (pt :: pts). split_and!; try done.
  - apply sort_rows_perm.
  - rewrite (Permutation_length (sort_rows_perm _ s_date (pt :: pts))).
    symmetry. by eapply Forall2_length.
  - apply sort_rows_sorted.
Qed.

(** On no item at all the frame has no column, and sorting it by [date] raises
    [KeyError]. *)
Lemma analyze_sentiments_nil w :
  exists w', analyze_sentiments [] w = (Raise (KeyError "date"), w') /\ extends w w'.
Proof.
  destruct (analyze_sentiments_returns [] [] w) as (res & w' & Hrun & Hext & Hd);
    [constructor|].
  cbn in Hd. subst res. by exists w'.
Qed.

End ScoreFacts.

(** *** Concrete libraries and items *)

(** The bounds of a datetime64 column in nanoseconds. *)
#[export] Instance ns_datetimes : Datetimes :=
  {| in_bounds := fun n => (-9223372036 <=? n) && (n <=? 9223372036);
     to_datetime_other := fun _ => Raise (LibraryError "to_datetime") |}.

(** A scoring function to run examples with. *)
#[export] Instance sample_blob : TextBlob :=
  fun txt => if String.eqb txt "" then 0%float else 0.5%float.

Definition sample_data : list RawItem :=
  [mkRawItem (JStr "BTC to the moon") (JInt 1700000600);
   mkRawItem (JStr "") (JInt 1700000000)].

Example analyze_sentiments_sample :
  analyze_sentiments sample_data empty_world
  = (Ok 1%nat,
     mkWorld [] []
       [SentDF (mkDataFrame ["date"; "polarity"]
                  [mkSentimentPoint 1700000600000000000 0.5;
                   mkSentimentPoint 1700000000000000000 0]);
        SentDF (mkDataFrame ["date"; "polarity"]
                  [mkSentimentPoint 1700000000000000000 0;
                   mkSentimentPoint 1700000600000000000 0.5])]).
Proof. reflexivity. Qed.

Lemma analyze_sentiments_scores_all_witness :
  exists df w' rows pts,
    analyze_sentiments sample_data empty_world = (Ok df, w') /\
    extends empty_world w' /\
    heap w' !! df = Some (SentDF (mkDataFrame ["date"; "polarity"] rows)) /\
    Forall2 scores sample_data pts /\
    Permutation rows pts /\
    length rows = length sample_data /\
    sorted_by s_date rows.
Proof.
  apply analyze_sentiments_scores_all; [done|].
  repeat constructor; eexists _, _; by split_and!.
Defined.

(** C5 as the claim states it: on every sequence of raw items the Scorer
    returns a frame with one row per item, sorted by [date]. *)
Definition scores_every_sequence_as_stated (srt : Sorter) (tb : TextBlob) (dt : Datetimes)
  : Prop :=
  forall (data : list RawItem) (w : world),
    exists df w' cols rows,
      analyze_sentiments data w = (Ok df, w') /\
      heap w' !! df = Some (SentDF (mkDataFrame cols rows)) /\
      length rows = length data /\
      sorted_by s_date rows.

(** Counterexample to C5 as stated: on the empty sequence the Scorer raises,
    whatever the libraries. *)
Lemma scores_every_sequence_as_stated_fails :
  ~ exists srt tb dt, scores_every_sequence_as_stated srt tb dt.
Proof.
  intros (srt & tb & dt & Hclaim).
  destruct (Hclaim [] empty_world) as (df & w' & cols & rows & Hrun & _).
  destruct (analyze_sentiments_nil empty_world) as (w'' & Hnil & _). congruence.
Qed.

End ScorerFacts.

(** ** Collector *)

Module CollectorFacts.
Import Python Pandas Model Collector ModelFacts.

(** *** The shape of a raw item *)

(** The string held by a field, the empty string when it holds none. *)
Definition field_str (fields : list (string * json)) (k : string) : string :=
  match dict_get fields k with
  | Some (JStr s) => s
  | _ => ""
  end.

(** The integer held by a field, zero when it holds none. *)
Definition field_int (fields : list (string * json)) (k : string) : Z :=
  match dict_get fields k with
  | Some (JInt n) => n
  | _ => 0
  end.

(** A text field of a submission: absent, null or a string. *)
Definition absent_null_or_str (v : option json) : Prop :=
  v = None \/ v = Some JNull \/ exists s, v = Some (JStr s).

(** The body of a comment: absent or a string. *)
Definition absent_or_str (v : option json) : Prop :=
  v = None \/ exists s, v = Some (JStr s).

(** The timestamp: absent or an integer. *)
Definition absent_or_int (v : option json) : Prop :=
  v = None \/ exists n, v = Some (JInt n).

(** The fields of an item hold what the response shape says they hold. *)
Definition well_shaped (kind : item_kind) (fields : list (string * json)) : Prop :=
  match kind with
  | submission =>
      absent_null_or_str (dict_get fields "title") /\
      absent_null_or_str (dict_get fields "selftext")
  | comment => absent_or_str (dict_get fields "body")
  end /\ absent_or_int (dict_get fields "created_utc").

(** The text the Collector gives a well-shaped item. *)
Definition expected_text (kind : item_kind) (fields : list (string * json)) : string :=
  match kind with
  | submission => field_str fields "title" +:+ " " +:+ field_str fields "selftext"
  | comment => field_str fields "body"
  end.

Lemma py_or_text v :
  absent_null_or_str v ->
  py_or (default JNull v) (JStr "")
  = JStr (match v with Some (JStr s) => s | _ => "" end).
Proof.
  intros [->|[->|[s ->]]]; try done. simpl. unfold py_or. simpl.
  by destruct s.
Qed.

Lemma append_assoc (a b c : string) : (a +:+ b) +:+ c = a +:+ b +:+ c.
Proof.
  induction a as [|ch a IH]; [done|].
  change (String ch ((a +:+ b) +:+ c) = String ch (a +:+ b +:+ c)). by rewrite IH.
Qed.

(** C7, as amended (defaults of absent fields): for an item whose fields
    hold what they should (a string, or for a submission also null, in a text
    field; an integer in [created_utc]), the raw item has a string for its text
    and an integer for its timestamp: title and selftext joined by a space for
    a submission, the body for a comment, an absent text field counting as the
    empty string and an absent timestamp as zero. *)
Theorem raw_item_defaults (kind : item_kind) (fields : list (string * json)) :
  well_shaped kind fields ->
  raw_item kind (JObj fields)
  = Ok (mkRawItem (JStr (expected_text kind fields)) (JInt (field_int fields "created_utc"))).
Proof.
  intros [Htext Hts]. unfold raw_item.
  assert (py_get (JObj fields) "created_utc" (JInt 0)
          = Ok (JInt (field_int fields "created_utc"))) as Hcreated.
  { unfold py_get, field_int. by destruct Hts as [->|[n ->]]. }
  rewrite Hcreated. destruct kind; simpl in Htext.
  - destruct Htext as [Htitle Hself]. unfold item_text.
    change (py_get (JObj fields) "title" JNull)
      with (Ok (default JNull (dict_get fields "title"))).
    change (py_get (JObj fields) "selftext" JNull)
      with (Ok (default JNull (dict_get fields "selftext"))).
    cbn [mbind result_bind]. rewrite (py_or_text _ Htitle).
    cbn [add_str_r mbind result_bind]. rewrite (py_or_text _ Hself).
    cbn [add_str_l fmap result_fmap mbind result_bind].
    unfold expected_text, field_str. by rewrite append_assoc.
  - unfold item_text.
    assert (py_get (JObj fields) "body" (JStr "") = Ok (JStr (field_str fields "body"))) as ->.
    { unfold py_get, field_str. by destruct Htext as [->|[s ->]]. }
    done.
Qed.

(** A submission without a body and without a timestamp. *)
Lemma raw_item_defaults_witness :
  raw_item submission (JObj [("title", JStr "BTC breaks out")])
  = Ok (mkRawItem (JStr "BTC breaks out ") (JInt 0)).
Proof.
  apply (raw_item_defaults submission [("title", JStr "BTC breaks out")]).
  split; [split|]; unfold absent_null_or_str, absent_or_int; simpl; eauto.
Defined.

Example raw_item_comment_absent :
  raw_item comment (JObj []) = Ok (mkRawItem (JStr "") (JInt 0)).
Proof. reflexivity. Qed.

(** C7 as the claim states it: every raw item has a string for its text and
    an integer for its timestamp. *)
Definition raw_items_defined_as_stated : Prop :=
  forall (kind : item_kind) (fields : list (string * json)),
    exists txt n, raw_item kind (JObj fields) = Ok (mkRawItem (JStr txt) (JInt n)).

(** Counterexample to C7 as stated: a timestamp that is present and null is
    passed on as it is, and so is a body that is present and null. *)
Lemma raw_items_defined_as_stated_fails : ~ raw_items_defined_as_stated.
Proof.
  intros Hclaim.
  destruct (Hclaim submission [("title", JStr "BTC"); ("created_utc", JNull)])
    as (txt & n & Hraw).
  discriminate Hraw.
Qed.

Example raw_item_null_body :
  raw_item comment (JObj [("body", JNull); ("created_utc", JInt 1700000000)])
  = Ok (mkRawItem JNull (JInt 1700000000)).
Proof. reflexivity. Qed.

(** *** The requests of one call *)

Section FetchFacts.
Context {net : Network}.

(** What one pass of the inner loop makes of the answer to its request. *)
Definition pass_result (kind : item_kind) (results : list RawItem) (resp : Response)
  : result (list RawItem) :=
  _ ← raise_for_status resp;
  data ← (doc ← resp_json resp; d ← py_get doc "data" (JArr []); py_iter d);
  items_loop kind data results.

Lemma subs_loop_cons ticker post_limit kind sub rest results w :
  subs_loop ticker post_limit kind (sub :: rest) results w
  = let req := request_for ticker post_limit kind sub in
    let w1 := mkWorld (requests_log w ++ [req]) (downloads w) (heap w) in
    match respond (requests_log w) req with
    | Fails e => (Raise e, w1)
    | Responds resp =>
        match pass_result kind results resp with
        | Ok results' => subs_loop ticker post_limit kind rest results' w1
        | Raise e => (Raise e, w1)
        end
    end.
Proof.
  cbn [subs_loop]. unfold mbind at 1. unfold Py_bind, requests_get, pass_result.
  destruct (respond (requests_log w) (request_for ticker post_limit kind sub)) as [e|resp];
    [done|].
  cbn zeta. rewrite lift_bind.
  destruct (raise_for_status resp) as [[]|e]; [|done].
  cbn [mbind result_bind]. rewrite lift_bind.
  destruct (resp_json resp ≫= _) as [data|e]; [|done].
  rewrite lift_bind. cbn [mbind result_bind].
  by destruct (items_loop kind data results).
Qed.

(** [trace w plan res w']: a computation that ran from [w] to [w'] with the
    result [res] sent a prefix of the requests of [plan], all of them if it
    returned, and touched nothing else; a request answered with a status that
    is not [ok] was the last one sent, and the result is its [HTTPError]. *)
Definition trace (w : world) (plan : list Request) (res : result (list RawItem)) (w' : world)
  : Prop :=
  exists issued,
    requests_log w' = requests_log w ++ issued /\
    heap w' = heap w /\
    issued `prefix_of` plan /\
    (forall items, res = Ok items -> issued = plan) /\
    forall i req resp,
      issued !! i = Some req ->
      respond (requests_log w ++ take i issued) req = Responds resp ->
      ok resp = false ->
      res = Raise (HTTPError (status_code resp)) /\ length issued = S i.

Lemma trace_nil w results : trace w [] (Ok results) w.
Proof.
  exists []. split_and!; try done. by rewrite (right_id_L [] (++)).
Qed.

(** One failed pass: the request went out and nothing followed. *)
Lemma trace_stop w req plan e :
  (forall resp, respond (requests_log w) req = Responds resp -> ok resp = false ->
                e = HTTPError (status_code resp)) ->
  trace w (req :: plan) (Raise e) (mkWorld (requests_log w ++ [req]) (downloads w) (heap w)).
Proof.
  intros He. exists [req]. split_and!; try done.
  - apply prefix_cons, prefix_nil.
  - intros [|i] req' resp Hi Hresp Hok; [|by destruct i].
    injection Hi as <-. simpl in Hresp. rewrite (right_id_L [] (++)) in Hresp.
    by rewrite (He resp Hresp Hok).
Qed.

(** A pass that went through, followed by the rest of the run. *)
Lemma trace_step w req plan res w' :
  (forall resp, respond (requests_log w) req = Responds resp -> ok resp = true) ->
  trace (mkWorld (requests_log w ++ [req]) (downloads w) (heap w)) plan res w' ->
  trace w (req :: plan) res w'.
Proof.
  intros Hok (issued & Hlog & Hheap & Hpre & Hall & Hfail). simpl in Hlog, Hheap.
  exists (req :: issued). split_and!.
  - by rewrite Hlog, <-(assoc_L (++)).
  - done.
  - by apply prefix_cons.
  - intros items Hitems. by rewrite (Hall items Hitems).
  - intros [|i] req' resp Hi Hresp Hnok.
    + injection Hi as <-. simpl in Hresp. rewrite (right_id_L [] (++)) in Hresp.
      rewrite (Hok resp Hresp) in Hnok. done.
    + simpl in Hi, Hresp.
      assert (respond ((requests_log w ++ [req]) ++ take i issued) req' = Responds resp)
        as Hresp' by (by rewrite <-(assoc_L (++))).
      destruct (Hfail i req' resp Hi Hresp' Hnok) as [-> Hlen].
      split; [done|]. simpl. by rewrite Hlen.
Qed.

Lemma pass_result_ok kind results resp results' :
  pass_result kind results resp = Ok results' -> ok resp = true.
Proof.
  unfold pass_result, raise_for_status. by destruct (ok resp).
Qed.

Lemma pass_result_not_ok kind results resp :
  ok resp = false -> pass_result kind results resp = Raise (HTTPError (status_code resp)).
Proof.
  intros Hok. unfold pass_result, raise_for_status. by rewrite Hok.
Qed.

Lemma subs_loop_trace ticker post_limit kind subreddits results w :
  trace w (map (request_for ticker post_limit kind) subreddits)
    (fst (subs_loop ticker post_limit kind subreddits results w))
    (snd (subs_loop ticker post_limit kind subreddits results w)).
Proof.
  revert results w. induction subreddits as [|sub rest IH]; intros results w.
  - apply trace_nil.
  - rewrite subs_loop_cons. cbn zeta. cbn [map].
    destruct (respond (requests_log w) (request_for ticker post_limit kind sub))
      as [e|resp] eqn:Hresp.
    + apply trace_stop. intros resp' Hresp'. congruence.
    + destruct (pass_result kind results resp) as [results'|e] eqn:Hpass.
      * apply trace_step; [|apply IH].
        intros resp' Hresp'. rewrite Hresp in Hresp'. injection Hresp' as <-.
        by eapply pass_result_ok.
      * apply trace_stop. intros resp' Hresp' Hok.
        rewrite Hresp in Hresp'. injection Hresp' as <-.
        rewrite (pass_result_not_ok _ _ _ Hok) in Hpass. by injection Hpass.
Qed.

(** Two runs in a row: the second starts only if the first returned. *)
Lemma trace_seq w plan1 plan2 res1 w1 res2 w2 :
  trace w plan1 res1 w1 ->
  (forall items, res1 = Ok items -> trace w1 plan2 res2 w2) ->
  (forall e, res1 = Raise e -> res2 = Raise e /\ w2 = w1) ->
  trace w (plan1 ++ plan2) res2 w2.
Proof.
  intros (issued1 & Hlog1 & Hheap1 & Hpre1 & Hall1 & Hfail1) Hok Hraise.
  destruct res1 as [items|e].
  - destruct (Hok items eq_refl) as (issued2 & Hlog2 & Hheap2 & Hpre2 & Hall2 & Hfail2).
    rewrite (Hall1 items eq_refl) in *. clear Hall1 Hpre1.
    exists (plan1 ++ issued2). split_and!.
    + by rewrite Hlog2, Hlog1, (assoc_L (++)).
    + congruence.
    + by apply prefix_app.
    + intros items2 Hitems2. by rewrite (Hall2 items2 Hitems2).
    + intros i req resp Hi Hresp Hnok.
      destruct (decide (i < length plan1)%nat) as [Hlt|Hge].
      * rewrite lookup_app_l in Hi by done. rewrite take_app_le in Hresp by lia.
        by destruct (Hfail1 i req resp Hi Hresp Hnok).
      * rewrite lookup_app_r in Hi by lia. rewrite take_app_ge in Hresp by lia.
        rewrite (assoc_L (++)), <-Hlog1 in Hresp.
        destruct (Hfail2 _ req resp Hi Hresp Hnok) as [-> Hlen].
        split; [done|]. rewrite length_app, Hlen. lia.
  - destruct (Hraise e eq_refl) as [-> ->].
    exists issued1. split_and!; try done. by apply prefix_app_r.
Qed.

Lemma fetch_reddit_data_eq ticker subreddits post_limit w :
  fetch_reddit_data ticker subreddits post_limit w
  = match subs_loop ticker post_limit submission subreddits [] w with
    | (Ok items, w1) => subs_loop ticker post_limit comment subreddits items w1
    | (Raise e, w1) => (Raise e, w1)
    end.
Proof.
  unfold fetch_reddit_data. cbn [kinds_loop]. unfold mbind, Py_bind.
  destruct (subs_loop ticker post_limit submission subreddits [] w) as [[items|e] w1]; [|done].
  by destruct (subs_loop ticker post_limit comment subreddits items w1) as [[items2|e] w2].
Qed.

Lemma fetch_reddit_data_trace ticker subreddits post_limit w :
  trace w (planned_requests ticker subreddits post_limit)
    (fst (fetch_reddit_data ticker subreddits post_limit w))
    (snd (fetch_reddit_data ticker subreddits post_limit w)).
Proof.
  rewrite fetch_reddit_data_eq. unfold planned_requests.
  pose proof (subs_loop_trace ticker post_limit submission subreddits [] w) as H1.
  destruct (subs_loop ticker post_limit submission subreddits [] w) as [[items|e] w1].
  - eapply trace_seq; [exact H1| |done]. intros items' [= <-].
    apply subs_loop_trace.
  - eapply trace_seq; [exact H1|done|]. by intros e' [= <-].
Qed.

(** C6 (fail fast): when a request that [fetch_reddit_data] has sent is
    answered with a status that is not [ok], the call raises the [HTTPError] of
    that status and returns no item; that request is the last one sent, and the
    requests sent are the planned ones up to it, each once and in order. *)
Theorem fetch_reddit_data_fails_fast (ticker : string) (subreddits : list string)
    (post_limit : Z) (w w' : world) (res : result (list RawItem))
    (i : nat) (req : Request) (resp : Response) :
  fetch_reddit_data ticker subreddits post_limit w = (res, w') ->
  requests_log w' !! (length (requests_log w) + i)%nat = Some req ->
  respond (take (length (requests_log w) + i) (requests_log w')) req = Responds resp ->
  ok resp = false ->
  res = Raise (HTTPError (status_code resp)) /\
  requests_log w'
  = requests_log w ++ take (S i) (planned_requests ticker subreddits post_limit) /\
  heap w' = heap w.
Proof.
  intros Hrun Hi Hresp Hnok.
  pose proof (fetch_reddit_data_trace ticker subreddits post_limit w) as Htrace.
  rewrite Hrun in Htrace. destruct Htrace as (issued & Hlog & Hheap & [rest Hpre] & _ & Hfail).
  simpl in Hlog, Hheap. rewrite Hlog in Hi, Hresp.
  rewrite lookup_app_r in Hi by lia. rewrite take_app_ge in Hresp by lia.
  replace (length (requests_log w) + i - length (requests_log w))%nat with i in * by lia.
  destruct (Hfail i req resp Hi Hresp Hnok) as [Hres Hlen]. simpl in Hres.
  split_and!; try done.
  by rewrite Hlog, Hpre, take_app_length'.
Qed.

End FetchFacts.

(** A server that answers the second request with 503 and any other request
    with one item. *)
Definition second_fails : Network := fun history req =>
  if (length history =? 1)%nat
  then Responds (mkResponse 503 None)
  else Responds (mkResponse 200
                   (Some (JObj [("data", JArr [JObj [("title", JStr "BTC");
                                                      ("created_utc", JInt 1700000000)]])]))).

Lemma fetch_reddit_data_fails_fast_witness :
  fst (fetch_reddit_data (net := second_fails) "BTC" ["CryptoCurrency"; "Bitcoin"] 50 empty_world)
  = Raise (HTTPError 503) /\
  requests_log
    (snd (fetch_reddit_data (net := second_fails) "BTC" ["CryptoCurrency"; "Bitcoin"] 50
            empty_world))
  = take 2 (planned_requests "BTC" ["CryptoCurrency"; "Bitcoin"] 50) /\
  heap (snd (fetch_reddit_data (net := second_fails) "BTC" ["CryptoCurrency"; "Bitcoin"] 50
               empty_world)) = [].
Proof.
  apply (fetch_reddit_data_fails_fast (net := second_fails) "BTC" ["CryptoCurrency"; "Bitcoin"] 50
           empty_world _ _ 1%nat
           (request_for "BTC" 50 submission "Bitcoin") (mkResponse 503 None));
    reflexivity.
Defined.

End CollectorFacts.

(** ** The guarded pipeline *)

Module AppFacts.
Import Python Pandas Model Collector Scorer Aligner App.
Import PandasFacts ModelFacts ScorerFacts CollectorFacts.

Section RunFacts.
Context {srt : Sorter} {net : Network} {blob : TextBlob} {dts : Datetimes} {yf : YFinance}.

(** With data fetched, the run goes on to score exactly that data. *)
Lemma run_scores_fetched crypto_name num_posts subs period interval ticker w item data w1 :
  ticker_of CRYPTO_TICKERS crypto_name = Ok ticker ->
  fetch_reddit_data ticker subs num_posts w = (Ok (item :: data), w1) ->
  run crypto_name num_posts subs period interval w
  = (sent_df ← analyze_sentiments (item :: data);
     price_df ← get_price_df ticker period interval;
     merged ← merge_df sent_df price_df;
     mret (Merged sent_df merged)) w1.
Proof.
  intros Hticker Hfetch. unfold run. rewrite Hticker, lift_bind.
  rewrite (Py_bind_ok _ _ _ _ _ Hfetch).
  apply Py_bind_ext. intros sent_df w2. by rewrite lift_bind.
Qed.

(** C10 (the empty input of the Scorer): on the empty sequence
    [analyze_sentiments] does not return an empty frame but raises [KeyError]
    for the missing [date] column; a run that fetched no data stops at the
    guard with the no-data outcome, before the Scorer is called. *)
Theorem run_guards_empty_scorer (crypto_name : string) (num_posts : Z) (subs : list string)
    (period interval ticker : string) (w w1 : world) :
  ticker_of CRYPTO_TICKERS crypto_name = Ok ticker ->
  fetch_reddit_data ticker subs num_posts w = (Ok [], w1) ->
  (exists w2, analyze_sentiments [] w1 = (Raise (KeyError "date"), w2) /\ extends w1 w2) /\
  run crypto_name num_posts subs period interval w = (Ok NoData, w1).
Proof.
  intros Hticker Hfetch. split; [apply analyze_sentiments_nil|].
  unfold run. rewrite Hticker, lift_bind.
  by rewrite (Py_bind_ok _ _ _ _ _ Hfetch).
Qed.

End RunFacts.

(** *** Concrete runs *)

(** A server with nothing to report. *)
Definition no_posts : Network := fun _ _ =>
  Responds (mkResponse 200 (Some (JObj [("data", JArr [])]))).

(** A server with one item per request, and three prices. *)
Definition one_post : Network := fun history _ =>
  Responds (mkResponse 200
              (Some (JObj [("data",
                            JArr [JObj [("title", JStr "BTC");
                                        ("body", JStr "hodl");
                                        ("created_utc",
                                         JInt (1700000000 + Z.of_nat (length history)))]])]))).

Definition three_prices : YFinance := fun _ _ =>
  Ok (mkQuotes (Some "Datetime")
        [1700000001000000000; 1699999000000000000; 1700003600000000000]
        {[ "Open" := [35900; 34900; 36900]%float;
           "Close" := [36000; 35000; 37000]%float;
           "Volume" := [12; 7; 3]%float ]}).

Example run_sample :
  fst (run (net := one_post) (yf := three_prices)
         "Bitcoin (BTC)" 150 ["CryptoCurrency"] "7d" "1h" empty_world)
  = Ok (Merged 1%nat 8%nat) /\
  heap (snd (run (net := one_post) (yf := three_prices)
               "Bitcoin (BTC)" 150 ["CryptoCurrency"] "7d" "1h" empty_world)) !! 8%nat
  = Some (MergedDF (mkDataFrame ["date"; "polarity"; "Close"]
                      [mkMergedPoint 1700000000000000000 0.5 35000;
                       mkMergedPoint 1700000001000000000 0.5 36000])).
Proof. split; reflexivity. Qed.

Lemma run_guards_empty_scorer_witness :
  (exists w2,
     analyze_sentiments []
       (snd (fetch_reddit_data (net := no_posts) "BTC" ["CryptoCurrency"] 150 empty_world))
     = (Raise (KeyError "date"), w2) /\
     extends (snd (fetch_reddit_data (net := no_posts) "BTC" ["CryptoCurrency"] 150 empty_world))
       w2) /\
  run (net := no_posts) (yf := three_prices)
    "Bitcoin (BTC)" 150 ["CryptoCurrency"] "7d" "1h" empty_world
  = (Ok NoData,
     snd (fetch_reddit_data (net := no_posts) "BTC" ["CryptoCurrency"] 150 empty_world)).
Proof.
  apply (run_guards_empty_scorer (net := no_posts) (yf := three_prices)
           "Bitcoin (BTC)" 150 ["CryptoCurrency"] "7d" "1h" "BTC" empty_world);
    reflexivity.
Defined.

End AppFacts.

(** * Further properties of the code *)

(** ** Collector: what a call collects and sends *)

Module CollectorMore.
Import Python Pandas Model Collector ModelFacts CollectorFacts.

(** The item loop only appends: what was collected stays in front. *)
Lemma items_loop_acc kind items front results :
  items_loop kind items (front ++ results)
  = (fun out => front ++ out) <$> items_loop kind items results.
Proof.
  revert results. induction items as [|item items IH]; intros results; simpl; [done|].
  destruct (raw_item kind item) as [r|e]; simpl; [|done].
  by rewrite <-(assoc_L (++)), IH.
Qed.

Lemma items_loop_inv kind items results out :
  items_loop kind items results = Ok out ->
  exists new,
    out = results ++ new /\ Forall2 (fun item r => raw_item kind item = Ok r) items new.
Proof.
  revert results. induction items as [|item items IH]; intros results; simpl.
  - intros [= <-]. exists []. by rewrite (right_id_L [] (++)).
  - destruct (raw_item kind item) as [r|e] eqn:Hitem; simpl; [|done].
    intros (new & -> & Hall)%IH. exists (r :: new). split.
    + by rewrite <-(assoc_L (++)).
    + by constructor.
Qed.

(** X4 (no item dropped): when the item loop returns, it has appended to what
    was collected one raw item per item of the response, in the order of the
    response, however many there are. *)
Theorem items_loop_keeps_all (kind : item_kind) (items : list json)
    (results out : list RawItem) :
  items_loop kind items results = Ok out ->
  exists new,
    out = results ++ new /\
    Forall2 (fun item r => raw_item kind item = Ok r) items new /\
    length out = (length results + length items)%nat.
Proof.
  intros (new & -> & Hall)%items_loop_inv. exists new. split_and!; try done.
  by rewrite length_app, (Forall2_length _ _ _ Hall).
Qed.

Lemma items_loop_keeps_all_witness :
  exists new,
    [mkRawItem (JStr "hodl") (JInt 5); mkRawItem (JStr "") (JInt 0)]
    = [mkRawItem (JStr "hodl") (JInt 5)] ++ new /\
    Forall2 (fun item r => raw_item comment item = Ok r) [JObj []] new /\
    length [mkRawItem (JStr "hodl") (JInt 5); mkRawItem (JStr "") (JInt 0)]
    = (length [mkRawItem (JStr "hodl") (JInt 5)] + length [JObj []])%nat.
Proof.
  apply (items_loop_keeps_all comment [JObj []] [mkRawItem (JStr "hodl") (JInt 5)]).
  reflexivity.
Defined.

Lemma pass_result_acc kind results resp :
  pass_result kind results resp
  = (fun out => results ++ out) <$> pass_result kind [] resp.
Proof.
  unfold pass_result. destruct (raise_for_status resp) as [[]|e]; simpl; [|done].
  destruct (resp_json resp ≫= _) as [data|e]; simpl; [|done].
  by rewrite <-(items_loop_acc kind data results []), (right_id_L [] (++)).
Qed.

Section Replay.
Context {net : Network}.
Context (ticker : string) (post_limit : Z).

(** The planned requests answered one by one from the history on: the items
    of the responses in request order and the requests sent, up to the first
    request that fails or whose response does not pass. *)
Fixpoint replay (history : list Request) (plan : list (item_kind * string))
  : result (list RawItem) * list Request :=
  match plan with
  | [] => (Ok [], [])
  | (kind, sub) :: rest =>
      let req := request_for ticker post_limit kind sub in
      match respond history req with
      | Fails e => (Raise e, [req])
      | Responds resp =>
          match pass_result kind [] resp with
          | Raise e => (Raise e, [req])
          | Ok items =>
              let '(more, issued) := replay (history ++ [req]) rest in
              ((fun out => items ++ out) <$> more, req :: issued)
          end
      end
  end.

(** The passes of a call: every subreddit as submissions, then as comments. *)
Definition passes (subreddits : list string) : list (item_kind * string) :=
  map (pair submission) subreddits ++ map (pair comment) subreddits.

Lemma fmap_fmap_app (a b : list RawItem) (r : result (list RawItem)) :
  (fun out => a ++ out) <$> ((fun out => b ++ out) <$> r)
  = (fun out => (a ++ b) ++ out) <$> r.
Proof. destruct r; simpl; [|done]. by rewrite (assoc_L (++)). Qed.

Lemma subs_loop_replay kind subreddits results w :
  subs_loop ticker post_limit kind subreddits results w
  = ((fun out => results ++ out) <$> fst (replay (requests_log w) (map (pair kind) subreddits)),
     mkWorld (requests_log w ++ snd (replay (requests_log w) (map (pair kind) subreddits)))
       (downloads w) (heap w)).
Proof.
  revert results w. induction subreddits as [|sub rest IH]; intros results w.
  - destruct w. simpl. by rewrite !(right_id_L [] (++)).
  - rewrite subs_loop_cons. cbn zeta. cbn [map replay].
    destruct (respond (requests_log w) (request_for ticker post_limit kind sub)) as [e|resp];
      [done|].
    rewrite pass_result_acc.
    destruct (pass_result kind [] resp) as [items|e]; simpl; [|done].
    rewrite IH. cbn [requests_log heap].
    destruct (replay (requests_log w ++ [request_for ticker post_limit kind sub])
                (map (pair kind) rest)) as [more issued].
    cbn [fst snd]. by rewrite fmap_fmap_app, <-(assoc_L (++)).
Qed.

Lemma replay_app history plan1 plan2 :
  replay history (plan1 ++ plan2)
  = match fst (replay history plan1) with
    | Raise e => (Raise e, snd (replay history plan1))
    | Ok items =>
        ((fun out => items ++ out) <$> fst (replay (history ++ snd (replay history plan1)) plan2),
         snd (replay history plan1)
         ++ snd (replay (history ++ snd (replay history plan1)) plan2))
    end.
Proof.
  revert history. induction plan1 as [|[kind sub] plan1 IH]; intros history.
  - cbn [app replay fst snd]. rewrite (right_id_L [] (++)).
    destruct (replay history plan2) as [[items|e] issued]; by simpl.
  - cbn [app replay].
    destruct (respond history (request_for ticker post_limit kind sub)) as [e|resp]; [done|].
    destruct (pass_result kind [] resp) as [items|e]; [|done].
    rewrite IH.
    destruct (replay (history ++ [request_for ticker post_limit kind sub]) plan1)
      as [[more|e] issued]; cbn [fst snd fmap result_fmap]; [|done].
    rewrite <-(assoc_L (++)). cbn [app].
    destruct (replay _ plan2) as [[last|e] issued2]; cbn [fst snd fmap result_fmap]; [|done].
    by rewrite (assoc_L (++)).
Qed.

Lemma fetch_as_replay (subreddits : list string) (w : world) :
  fetch_reddit_data ticker subreddits post_limit w
  = (fst (replay (requests_log w) (passes subreddits)),
     mkWorld (requests_log w ++ snd (replay (requests_log w) (passes subreddits)))
       (downloads w) (heap w)).
Proof.
  rewrite fetch_reddit_data_eq, subs_loop_replay. unfold passes. rewrite replay_app.
  destruct (replay (requests_log w) (map (pair submission) subreddits)) as [[items|e] issued];
    cbn [fst snd fmap result_fmap app]; [|done].
  rewrite subs_loop_replay. cbn [requests_log heap].
  by rewrite (assoc_L (++)).
Qed.

(** X3 (a call is a replay of its plan): the result of [fetch_reddit_data]
    and the requests it sends are those of going through the planned passes
    one by one, every subreddit as submissions and then as comments: the raw
    items of the responses in request order, or the exception of the first
    pass that fails, with nothing sent after it.  What was collected or
    requested before the call has no part in it but as the history the
    network answers from, and the heap is left alone. *)
Theorem fetch_reddit_data_replay (subreddits : list string) (w : world) :
  fst (fetch_reddit_data ticker subreddits post_limit w)
  = fst (replay (requests_log w) (passes subreddits)) /\
  requests_log (snd (fetch_reddit_data ticker subreddits post_limit w))
  = requests_log w ++ snd (replay (requests_log w) (passes subreddits)) /\
  heap (snd (fetch_reddit_data ticker subreddits post_limit w)) = heap w.
Proof. by rewrite fetch_as_replay. Qed.

(** A request that fails in the network ends the replay with its exception. *)
Lemma replay_network_failure history plan i req e :
  snd (replay history plan) !! i = Some req ->
  respond (history ++ take i (snd (replay history plan))) req = Fails e ->
  fst (replay history plan) = Raise e /\ length (snd (replay history plan)) = S i.
Proof.
  revert history i. induction plan as [|[kind sub] plan IH]; intros history i; [done|].
  cbn [replay].
  destruct (respond history (request_for ticker post_limit kind sub)) as [e0|resp] eqn:Hfirst.
  - destruct i as [|i]; [|by destruct i]. cbn. intros [= <-].
    rewrite (right_id_L [] (++)), Hfirst. by intros [= <-].
  - destruct (pass_result kind [] resp) as [items|e0].
    + destruct (replay (history ++ [request_for ticker post_limit kind sub]) plan)
        as [more issued] eqn:Hrest.
      cbn [fst snd]. destruct i as [|i]; cbn.
      * intros [= <-]. rewrite (right_id_L [] (++)), Hfirst. done.
      * intros Hi Hfail. specialize (IH (history ++ [request_for ticker post_limit kind sub]) i).
        rewrite Hrest in IH. cbn [fst snd] in IH.
        rewrite <-(assoc_L (++)) in IH. destruct (IH Hi Hfail) as [-> ->]. done.
    + destruct i as [|i]; [|by destruct i]. cbn. intros [= <-].
      rewrite (right_id_L [] (++)), Hfirst. done.
Qed.

(** X1 (the requests of a call that returns): a call of [fetch_reddit_data]
    that returns has sent exactly the planned requests in order, two per
    subreddit, and has left the heap as it was. *)
Theorem fetch_reddit_data_sends_plan (subreddits : list string) (w w' : world)
    (items : list RawItem) :
  fetch_reddit_data ticker subreddits post_limit w = (Ok items, w') ->
  requests_log w' = requests_log w ++ planned_requests ticker subreddits post_limit /\
  length (requests_log w') = (length (requests_log w) + 2 * length subreddits)%nat /\
  heap w' = heap w.
Proof.
  intros Hrun.
  pose proof (fetch_reddit_data_trace ticker subreddits post_limit w) as Htrace.
  rewrite Hrun in Htrace. destruct Htrace as (issued & Hlog & Hheap & _ & Hall & _).
  simpl in Hlog, Hheap, Hall. rewrite (Hall items eq_refl) in Hlog.
  split_and!; try done.
  rewrite Hlog, length_app. unfold planned_requests. rewrite length_app, !length_map. lia.
Qed.

(** X2 (network failure): when a request that [fetch_reddit_data] has sent
    fails in the network, the call raises the exception of [requests.get], that
    request is the last one sent, and the heap is as it was. *)
Theorem fetch_reddit_data_network_failure (subreddits : list string) (w w' : world)
    (res : result (list RawItem)) (i : nat) (req : Request) (e : exn) :
  fetch_reddit_data ticker subreddits post_limit w = (res, w') ->
  requests_log w' !! (length (requests_log w) + i)%nat = Some req ->
  respond (take (length (requests_log w) + i) (requests_log w')) req = Fails e ->
  res = Raise e /\
  length (requests_log w') = S (length (requests_log w) + i) /\
  heap w' = heap w.
Proof.
  rewrite fetch_as_replay. intros [= <- <-]. cbn [requests_log heap].
  intros Hi Hfail. rewrite lookup_app_r in Hi by lia. rewrite take_app_ge in Hfail by lia.
  replace (length (requests_log w) + i - length (requests_log w))%nat with i in * by lia.
  destruct (replay_network_failure _ _ _ _ _ Hi Hfail) as [Hres Hlen].
  split_and!; try done. rewrite length_app, Hlen. lia.
Qed.

(** An answer that passes and brings no item: a status that is no error and a
    JSON object whose [data] is missing or an empty list. *)
Definition empty_handed (o : outcome) : Prop :=
  exists resp fields,
    o = Responds resp /\ ok resp = true /\ body resp = Some (JObj fields) /\
    (dict_get fields "data" = None \/ dict_get fields "data" = Some (JArr [])).

Lemma replay_empty_handed history plan :
  (forall h req, empty_handed (respond h req)) ->
  replay history plan
  = (Ok [], map (fun pass => request_for ticker post_limit (fst pass) (snd pass)) plan).
Proof.
  intros Hnet. revert history. induction plan as [|[kind sub] plan IH]; intros history; [done|].
  cbn [replay map fst snd].
  destruct (Hnet history (request_for ticker post_limit kind sub))
    as (resp & fields & -> & Hok & Hbody & Hdata).
  assert (pass_result kind [] resp = Ok []) as ->.
  { unfold pass_result, raise_for_status, resp_json. rewrite Hok, Hbody.
    cbn [mbind result_bind py_get]. by destruct Hdata as [-> | ->]. }
  by rewrite IH.
Qed.

Lemma fetch_reddit_data_empty_handed subreddits w :
  (forall h req, empty_handed (respond h req)) ->
  fetch_reddit_data ticker subreddits post_limit w
  = (Ok [],
     mkWorld (requests_log w ++ planned_requests ticker subreddits post_limit)
       (downloads w) (heap w)).
Proof.
  intros Hnet. rewrite fetch_as_replay, (replay_empty_handed _ _ Hnet).
  cbn [fst snd]. unfold passes, planned_requests. by rewrite map_app, !map_map.
Qed.

End Replay.

(** A server that answers the first request and is unreachable afterwards. *)
Definition goes_down : Network := fun history req =>
  match history with
  | [] => Responds (mkResponse 200
                      (Some (JObj [("data", JArr [JObj [("title", JStr "BTC")]])])))
  | _ :: _ => Fails (RequestException "ConnectionError")
  end.

Lemma fetch_reddit_data_sends_plan_witness :
  requests_log (snd (fetch_reddit_data (net := AppFacts.no_posts) "BTC" ["Bitcoin"] 50 empty_world))
  = requests_log empty_world ++ planned_requests "BTC" ["Bitcoin"] 50 /\
  length (requests_log
            (snd (fetch_reddit_data (net := AppFacts.no_posts) "BTC" ["Bitcoin"] 50 empty_world)))
  = (length (requests_log empty_world) + 2 * length ["Bitcoin"])%nat /\
  heap (snd (fetch_reddit_data (net := AppFacts.no_posts) "BTC" ["Bitcoin"] 50 empty_world))
  = heap empty_world.
Proof.
  apply (fetch_reddit_data_sends_plan (net := AppFacts.no_posts) "BTC" 50 ["Bitcoin"]
           empty_world _ []).
  reflexivity.
Defined.

Lemma fetch_reddit_data_network_failure_witness :
  fst (fetch_reddit_data (net := goes_down) "BTC" ["Bitcoin"; "Ethereum"] 50 empty_world)
  = Raise (RequestException "ConnectionError") /\
  length (requests_log
            (snd (fetch_reddit_data (net := goes_down) "BTC" ["Bitcoin"; "Ethereum"] 50
                    empty_world)))
  = S (length (requests_log empty_world) + 1) /\
  heap (snd (fetch_reddit_data (net := goes_down) "BTC" ["Bitcoin"; "Ethereum"] 50 empty_world))
  = heap empty_world.
Proof.
  apply (fetch_reddit_data_network_failure (net := goes_down) "BTC" 50 ["Bitcoin"; "Ethereum"]
           empty_world _ _ 1%nat (request_for "BTC" 50 submission "Ethereum"));
    reflexivity.
Defined.

End CollectorMore.

(** ** Scorer: when it fails, and what it makes of the Collector's items *)

Module ScorerMore.
Import Python Pandas Model Collector Scorer PandasFacts ModelFacts ScorerFacts CollectorMore.

Section ScoreMore.
Context {srt : Sorter} {blob : TextBlob} {dts : Datetimes}.

(** [entry] is scored: neither [TextBlob] nor [to_datetime] raises on it. *)
Definition scorable (entry : RawItem) : Prop := exists pt, score_entry entry = Ok pt.

Lemma score_loop_raise good pts bad rest rows e :
  Forall2 (fun entry pt => score_entry entry = Ok pt) good pts ->
  score_entry bad = Raise e ->
  score_loop (good ++ bad :: rest) rows = Raise e.
Proof.
  intros Hgood Hbad. revert rows.
  induction Hgood as [|entry pt good pts Hpt _ IH]; intros rows; simpl.
  - by rewrite Hbad.
  - rewrite Hpt. simpl. apply IH.
Qed.

(** Every entry is scored, or there is a first one that is not. *)
Lemma score_loop_cases data :
  (exists pts, Forall2 (fun entry pt => score_entry entry = Ok pt) data pts)
  \/ (exists good pts bad rest e,
         data = good ++ bad :: rest /\
         Forall2 (fun entry pt => score_entry entry = Ok pt) good pts /\
         score_entry bad = Raise e).
Proof.
  induction data as [|entry data IH]; [left; by exists []|].
  destruct (score_entry entry) as [pt|e] eqn:Hentry.
  - destruct IH as [(pts & Hpts)|(good & pts & bad & rest & e & -> & Hgood & Hbad)].
    + left. exists (pt :: pts). by constructor.
    + right. exists (entry :: good), (pt :: pts), bad, rest, e. split_and!; try done.
      by constructor.
  - right. by exists [], [], entry, data, e.
Qed.

Lemma analyze_sentiments_stops good pts bad rest e w :
  Forall2 (fun entry pt => score_entry entry = Ok pt) good pts ->
  score_entry bad = Raise e ->
  analyze_sentiments (good ++ bad :: rest) w = (Raise e, w).
Proof.
  intros Hgood Hbad. unfold analyze_sentiments.
  by rewrite lift_bind, (score_loop_raise good pts bad rest [] e Hgood Hbad).
Qed.

(** X5 (first failure): when the entries before [bad] are scored and scoring
    [bad] raises, [analyze_sentiments] raises that exception; the entries
    after it play no part, no frame is built and the world is as it was. *)
Theorem analyze_sentiments_first_failure (good : list RawItem) (pts : list SentimentPoint)
    (bad : RawItem) (rest : list RawItem) (e : exn) (w : world) :
  Forall2 (fun entry pt => score_entry entry = Ok pt) good pts ->
  score_entry bad = Raise e ->
  analyze_sentiments (good ++ bad :: rest) w = (Raise e, w) /\
  forall rest', fst (analyze_sentiments (good ++ bad :: rest') w) = Raise e.
Proof.
  intros Hgood Hbad. split; [by eapply analyze_sentiments_stops|].
  intros rest'. by rewrite (analyze_sentiments_stops good pts bad rest' e w).
Qed.

(** X6 (when the Scorer returns): [analyze_sentiments] returns a frame
    exactly when there is at least one entry and every entry is scored; in
    every other case it raises. *)
Theorem analyze_sentiments_returns_iff (data : list RawItem) (w : world) :
  (exists df w', analyze_sentiments data w = (Ok df, w'))
  <-> data <> [] /\ Forall scorable data.
Proof.
  split.
  - intros (df & w' & Hrun).
    destruct (score_loop_cases data)
      as [(pts & Hpts)|(good & pts & bad & rest & e & -> & Hgood & Hbad)].
    + split.
      * intros ->. destruct (analyze_sentiments_nil w) as (w'' & Hnil & _). congruence.
      * clear Hrun. induction Hpts; constructor; [by eexists|done].
    + rewrite (analyze_sentiments_stops good pts bad rest e w Hgood Hbad) in Hrun. done.
  - intros [Hne Hall].
    assert (exists pts, Forall2 (fun entry pt => score_entry entry = Ok pt) data pts)
      as (pts & Hpts).
    { clear Hne. induction Hall as [|entry data [pt Hpt] _ (pts & Hpts)]; [by exists []|].
      exists (pt :: pts). by constructor. }
    destruct (analyze_sentiments_returns data pts w Hpts) as (res & w' & Hrun & _ & Hd).
    destruct pts as [|pt pts]; [apply Forall2_nil_inv_r in Hpts; congruence|].
    cbn in Hd. destruct Hd as (df & -> & _). by exists df, w'.
Qed.

(** X7 (a null comment body): a comment whose [body] is present and null
    goes through the Collector, which hands over [None] as its text; on the
    data of such a response the Scorer raises, and builds no frame. *)
Theorem null_comment_body_fails_scorer (items : list json) (fields : list (string * json))
    (data : list RawItem) (w : world) :
  items_loop comment items [] = Ok data ->
  JObj fields ∈ items ->
  dict_get fields "body" = Some JNull ->
  exists e, analyze_sentiments data w = (Raise e, w).
Proof.
  intros (new & -> & Hall)%items_loop_inv Hin Hnull. simpl.
  destruct (score_loop_cases new)
    as [(pts & Hpts)|(good & pts & bad & rest & e & -> & Hgood & Hbad)].
  - exfalso. apply list_elem_of_lookup in Hin as [i Hi].
    destruct (Forall2_lookup_l _ _ _ _ _ Hall Hi) as (r & Hr & Hraw).
    destruct (Forall2_lookup_l _ _ _ _ _ Hpts Hr) as (pt & _ & Hpt).
    unfold raw_item, item_text, py_get in Hraw. rewrite Hnull in Hraw. simpl in Hraw.
    injection Hraw as <-. done.
  - exists e. by eapply analyze_sentiments_stops.
Qed.

(** X8 (a post without a timestamp): a submission without [created_utc] that
    the Collector accepts is given a text, and the Scorer dates it at the
    epoch, the instant 0. *)
Theorem missing_timestamp_dated_at_epoch (fields : list (string * json)) (r : RawItem) :
  raw_item submission (JObj fields) = Ok r ->
  dict_get fields "created_utc" = None ->
  in_bounds 0 = true ->
  exists txt, text r = JStr txt /\ score_entry r = Ok (mkSentimentPoint 0 (polarity_of txt)).
Proof.
  intros Hraw Hnone Hzero. unfold raw_item, item_text, py_get in Hraw.
  rewrite Hnone in Hraw. simpl in Hraw.
  destruct (add_str_r _ _) as [left|e]; simpl in Hraw; [|done].
  destruct (add_str_l _ _) as [txt|e]; simpl in Hraw; [|done].
  injection Hraw as <-. exists txt. split; [done|].
  unfold score_entry, to_datetime. simpl. by rewrite Hzero.
Qed.

End ScoreMore.

Definition null_then_fine : list RawItem :=
  [mkRawItem (JStr "fine") (JInt 1700000000); mkRawItem JNull (JInt 1700000600);
   mkRawItem (JStr "never read") (JInt 1700001200)].

Lemma analyze_sentiments_first_failure_witness :
  analyze_sentiments null_then_fine empty_world = (Raise TypeError, empty_world) /\
  forall rest',
    fst (analyze_sentiments
           ([mkRawItem (JStr "fine") (JInt 1700000000)]
            ++ mkRawItem JNull (JInt 1700000600) :: rest') empty_world)
    = Raise TypeError.
Proof.
  apply (analyze_sentiments_first_failure [mkRawItem (JStr "fine") (JInt 1700000000)]
           [mkSentimentPoint 1700000000000000000 0.5] (mkRawItem JNull (JInt 1700000600))
           [mkRawItem (JStr "never read") (JInt 1700001200)] TypeError empty_world).
  - repeat constructor.
  - reflexivity.
Defined.

Lemma null_comment_body_fails_scorer_witness :
  exists e,
    analyze_sentiments
      [mkRawItem (JStr "fine") (JInt 1700000000); mkRawItem JNull (JInt 1700000600)]
      empty_world
    = (Raise e, empty_world).
Proof.
  apply (null_comment_body_fails_scorer
           [JObj [("body", JStr "fine"); ("created_utc", JInt 1700000000)];
            JObj [("body", JNull); ("created_utc", JInt 1700000600)]]
           [("body", JNull); ("created_utc", JInt 1700000600)]).
  - reflexivity.
  - repeat constructor.
  - reflexivity.
Defined.

Lemma missing_timestamp_dated_at_epoch_witness :
  exists txt,
    text (mkRawItem (JStr "BTC ") (JInt 0)) = JStr txt /\
    score_entry (mkRawItem (JStr "BTC ") (JInt 0)) = Ok (mkSentimentPoint 0 (polarity_of txt)).
Proof.
  apply (missing_timestamp_dated_at_epoch [("title", JStr "BTC")]); reflexivity.
Defined.

End ScorerMore.

(** ** Aligner: the price frame, and the frame the merge returns *)

Module AlignerMore.
Import Python Pandas Model Aligner PandasFacts ModelFacts AlignerFacts.

Section Frames.
Context {srt : Sorter}.

Lemma sorted_by_map {A B} (f : A -> B) (keyA : A -> Timestamp) (keyB : B -> Timestamp) l :
  (forall x, keyB (f x) = keyA x) -> sorted_by keyA l -> sorted_by keyB (map f l).
Proof.
  intros Hkey. induction 1 as [|x l _ IH Hx]; simpl; constructor; [done|].
  apply Forall_forall. intros y Hy. apply list_elem_of_In, in_map_iff in Hy as (z & <- & Hz).
  rewrite !Hkey. rewrite Forall_forall in Hx. by apply Hx, list_elem_of_In.
Qed.

Lemma merged_rows_sorted S P : sorted_by m_date (merged_rows S P).
Proof. unfold merged_rows. by apply (sorted_by_map _ s_date), sort_rows_sorted. Qed.

Lemma merged_rows_pairs S P :
  Permutation (map (fun m => (m_date m, m_polarity m)) (merged_rows S P))
              (map (fun s => (s_date s, s_polarity s)) S).
Proof.
  unfold merged_rows. rewrite map_map. simpl.
  apply Permutation_map, sort_rows_perm.
Qed.



(** X9 (the merged frame is in date order): the frame [merge_df] returns is
    sorted by [date], whatever the order of the two frames it is given, and
    it carries the date and polarity of every sentiment point exactly as many
    times as the sentiment frame does. *)
Theorem merge_df_sorted_output (S : list SentimentPoint) (P : list PricePoint) :
  exists merged,
    merge S P = Ok merged /\
    sorted_by m_date merged /\
    Permutation (map (fun m => (m_date m, m_polarity m)) merged)
                (map (fun s => (s_date s, s_polarity s)) S).
Proof.
  exists (merged_rows S P). split; [apply merge_eq|].
  split; [apply merged_rows_sorted|apply merged_rows_pairs].
Qed.

Lemma merge_df_obj_no_date ldf rdf :
  has_column "date" ldf && has_column "date" rdf = false ->
  merge_df_obj (SentDF ldf) (PriceDF rdf) = Raise (KeyError "date").
Proof.
  intros Hcols. unfold merge_df_obj. cbn [obj_sort_values]. unfold sort_values_date.
  destruct (has_column "date" ldf); [|done].
  destruct (has_column "date" rdf); done.
Qed.

(** X10 (the [date] column): called on a sentiment frame and a price frame,
    [merge_df] returns a new frame with the joined rows when both have a
    [date] column, whatever their other columns; when one of them has none it
    raises [KeyError] for [date].  In both cases the two frames are left as
    they were. *)
Theorem merge_df_needs_date (w : world) (sent_df price_df : ref)
    (ldf : DataFrame SentimentPoint) (rdf : DataFrame PricePoint) :
  heap w !! sent_df = Some (SentDF ldf) ->
  heap w !! price_df = Some (PriceDF rdf) ->
  exists res w',
    merge_df sent_df price_df w = (res, w') /\
    extends w w' /\
    heap w' !! sent_df = Some (SentDF ldf) /\
    heap w' !! price_df = Some (PriceDF rdf) /\
    if has_column "date" ldf && has_column "date" rdf
    then exists merged df,
           res = Ok merged /\
           heap w' !! merged = Some (MergedDF df) /\
           rows df = merged_rows (rows ldf) (rows rdf)
    else res = Raise (KeyError "date").
Proof.
  intros Hs Hp.
  destruct (merge_df_returns w sent_df price_df _ _ Hs Hp) as (res & w' & Hrun & Hext & Hd).
  exists res, w'. split_and!; try done; try by eapply extends_lookup.
  destruct (has_column "date" ldf && has_column "date" rdf) eqn:Hcols.
  - apply andb_true_iff in Hcols as [Hl Hr].
    rewrite (merge_df_obj_frames ldf rdf Hl Hr) in Hd.
    destruct Hd as (merged & -> & Hmerged). by eexists _, _.
  - by rewrite (merge_df_obj_no_date ldf rdf Hcols) in Hd.
Qed.

Context {yf : YFinance}.

(** The download of [get_price_df], and the world once it has gone out. *)
Definition price_download (ticker_full period interval : string) : Download :=
  mkDownload (ticker_full +:+ "-USD") period interval.

Definition downloaded (w : world) (d : Download) : world :=
  mkWorld (requests_log w) (downloads w ++ [d]) (heap w).

Lemma get_price_df_eq ticker_full period interval w :
  get_price_df ticker_full period interval w
  = match download (downloads w) (price_download ticker_full period interval) with
    | Raise e => (Raise e, downloaded w (price_download ticker_full period interval))
    | Ok quotes =>
        (df ← lift (reset_index quotes);
         selected ← lift (select_date_Close (rename_first "date" df));
         selected ← alloc (PriceDF selected);
         df_sort_values selected) (downloaded w (price_download ticker_full period interval))
    end.
Proof.
  unfold get_price_df. unfold mbind at 1. unfold Py_bind, yf_download, price_download.
  by destruct (download _ _).
Qed.

(** What [get_price_df] makes of a frame with a [Close] column whose labels
    leave room for the index and for [date]. *)
Lemma get_price_df_selected ticker_full period interval w quotes closes :
  download (downloads w) (price_download ticker_full period interval) = Ok quotes ->
  quote_columns quotes !! index_label quotes = None ->
  quote_columns quotes !! "Close" = Some closes ->
  quote_columns quotes !! "date" = None ->
  exists df w',
    get_price_df ticker_full period interval w = (Ok df, w') /\
    extends (downloaded w (price_download ticker_full period interval)) w' /\
    heap w' !! df
    = Some (price_frame (sort_rows p_date (zip_with mkPricePoint (index quotes) closes))).
Proof.
  intros Hdown Hindex Hclose Hdate. rewrite get_price_df_eq, Hdown.
  unfold reset_index, select_date_Close. rewrite Hindex, lift_bind.
  cbn [rename_first other_columns].
  rewrite Hclose, Hdate, lift_bind. cbn [first_column].
  set (w1 := downloaded w _).
  destruct (returns_bind
              (alloc (PriceDF (mkDataFrame ["date"; "Close"]
                                 (zip_with mkPricePoint (index quotes) closes))))
              df_sort_values w1 (Ok (price_frame (zip_with mkPricePoint (index quotes) closes)))
              obj_sort_values (returns_alloc _ w1))
    as (res & w' & Hrun & Hext & Hd).
  { intros n w' o _ Hn. by apply returns_sort_values. }
  cbn in Hd. destruct Hd as (df & -> & Hdf). by exists df, w'.
Qed.

(** X11 (the price frame): [get_price_df] makes one download, of the pair of
    the ticker against USD.  From a frame that has a [Close] column, and whose
    labels leave room for the index and for [date], it returns a new frame
    with the columns [date] and [Close]: the instants of the index, each with
    the close at its position, in non-decreasing order of [date]; the other
    columns are dropped. *)
Theorem get_price_df_frame (ticker_full period interval : string) (w : world)
    (quotes : Quotes) (closes : list float) :
  download (downloads w) (mkDownload (ticker_full +:+ "-USD") period interval) = Ok quotes ->
  quote_columns quotes !! index_label quotes = None ->
  quote_columns quotes !! "Close" = Some closes ->
  quote_columns quotes !! "date" = None ->
  exists df w' rows,
    get_price_df ticker_full period interval w = (Ok df, w') /\
    downloads w' = downloads w ++ [mkDownload (ticker_full +:+ "-USD") period interval] /\
    (exists new, heap w' = heap w ++ new) /\
    heap w' !! df = Some (PriceDF (mkDataFrame ["date"; "Close"] rows)) /\
    Permutation rows (zip_with mkPricePoint (index quotes) closes) /\
    sorted_by p_date rows.
Proof.
  intros Hdown Hindex Hclose Hdate.
  destruct (get_price_df_selected ticker_full period interval w quotes closes
              Hdown Hindex Hclose Hdate)
    as (df & w' & Hrun & (_ & Hdl & Hheap) & Hdf).
  exists df, w', (sort_rows p_date (zip_with mkPricePoint (index quotes) closes)).
  split_and!; try done.
  - apply sort_rows_perm.
  - apply sort_rows_sorted.
Qed.

(** X20 (no [Close] column): when the downloaded frame has no column
    labelled [Close], the selection raises [KeyError] and no frame is built;
    the download has been made. *)
Theorem get_price_df_missing_close (ticker_full period interval : string) (w : world)
    (quotes : Quotes) :
  download (downloads w) (mkDownload (ticker_full +:+ "-USD") period interval) = Ok quotes ->
  quote_columns quotes !! index_label quotes = None ->
  quote_columns quotes !! "Close" = None ->
  get_price_df ticker_full period interval w
  = (Raise (KeyError "['Close'] not in index"),
     mkWorld (requests_log w)
       (downloads w ++ [mkDownload (ticker_full +:+ "-USD") period interval]) (heap w)).
Proof.
  intros Hdown Hindex Hclose. rewrite get_price_df_eq. unfold price_download. rewrite Hdown.
  unfold reset_index, select_date_Close. rewrite Hindex, lift_bind.
  cbn [rename_first other_columns].
  by rewrite Hclose, lift_bind.
Qed.

End Frames.

Lemma merge_df_needs_date_witness :
  exists res w',
    merge_df 0%nat 1%nat
      (mkWorld [] [] [SentDF (mkDataFrame [] []); price_frame [mkPricePoint 10 100]])
    = (res, w') /\
    extends (mkWorld [] [] [SentDF (mkDataFrame [] []); price_frame [mkPricePoint 10 100]]) w' /\
    heap w' !! 0%nat = Some (SentDF (mkDataFrame [] [])) /\
    heap w' !! 1%nat = Some (PriceDF (mkDataFrame ["date"; "Close"] [mkPricePoint 10 100])) /\
    if has_column "date" (mkDataFrame (A := SentimentPoint) [] [])
       && has_column "date" (mkDataFrame ["date"; "Close"] [mkPricePoint 10 100])
    then exists merged df,
           res = Ok merged /\
           heap w' !! merged = Some (MergedDF df) /\
           rows df
           = merged_rows (rows (mkDataFrame (A := SentimentPoint) [] []))
               (rows (mkDataFrame ["date"; "Close"] [mkPricePoint 10 100]))
    else res = Raise (KeyError "date").
Proof.
  apply (merge_df_needs_date
           (mkWorld [] [] [SentDF (mkDataFrame [] []); price_frame [mkPricePoint 10 100]])
           0%nat 1%nat (mkDataFrame [] []) (mkDataFrame ["date"; "Close"] [mkPricePoint 10 100]));
    reflexivity.
Defined.

Lemma get_price_df_frame_witness :
  exists df w' rows,
    get_price_df (yf := AppFacts.three_prices) "BTC" "7d" "1h" empty_world = (Ok df, w') /\
    downloads w' = downloads empty_world ++ [mkDownload ("BTC" +:+ "-USD") "7d" "1h"] /\
    (exists new, heap w' = heap empty_world ++ new) /\
    heap w' !! df = Some (PriceDF (mkDataFrame ["date"; "Close"] rows)) /\
    Permutation rows
      (zip_with mkPricePoint
         (index (mkQuotes (Some "Datetime")
                   [1700000001000000000; 1699999000000000000; 1700003600000000000]
                   {[ "Open" := [35900; 34900; 36900]%float;
                      "Close" := [36000; 35000; 37000]%float;
                      "Volume" := [12; 7; 3]%float ]}))
         [36000; 35000; 37000]%float) /\
    sorted_by p_date rows.
Proof.
  apply (get_price_df_frame (yf := AppFacts.three_prices) "BTC" "7d" "1h" empty_world);
    reflexivity.
Defined.

(** A download without a [Close] column. *)
Definition only_volume : YFinance := fun _ _ =>
  Ok (mkQuotes (Some "Date") [1700000000000000000] {[ "Volume" := [12%float] ]}).

Lemma get_price_df_missing_close_witness :
  get_price_df (yf := only_volume) "DAI" "1d" "1h" empty_world
  = (Raise (KeyError "['Close'] not in index"),
     mkWorld (requests_log empty_world)
       (downloads empty_world ++ [mkDownload ("DAI" +:+ "-USD") "1d" "1h"])
       (heap empty_world)).
Proof.
  apply (get_price_df_missing_close (yf := only_volume) "DAI" "1d" "1h" empty_world
           (mkQuotes (Some "Date") [1700000000000000000] {[ "Volume" := [12%float] ]}));
    reflexivity.
Defined.

End AlignerMore.

(** ** Display: the figures read off the frames *)

Module DisplayFacts.
Import Python Pandas Model Aligner Display PandasFacts ModelFacts AlignerFacts AlignerMore.

Lemma last_map {A B} (f : A -> B) l : last (map f l) = f <$> last l.
Proof.
  induction l as [|x l IH]; [done|].
  destruct l as [|y l]; [done|]. exact IH.
Qed.

(** The last row of a sorted frame has the greatest key. *)
Lemma sorted_by_last_max {A} (key : A -> Timestamp) l x :
  sorted_by key l -> last l = Some x -> forall y, y ∈ l -> key y <= key x.
Proof.
  induction l as [|z l IH]; [done|].
  intros [Hz Hs]%sorted_by_cons Hlast y Hy.
  destruct l as [|z' l'].
  - injection Hlast as <-. apply list_elem_of_singleton in Hy as ->. lia.
  - rewrite last_cons_cons in Hlast.
    apply elem_of_cons in Hy as [->|Hy]; [|by apply IH].
    rewrite Forall_forall in Hz. by apply Hz, last_Some_elem_of.
Qed.

Section Metrics.
Context {srt : Sorter}.

Lemma last_close_merged_rows cols S P :
  match last_close (mkDataFrame cols (merged_rows S P)) with
  | None => S = []
  | Some close =>
      exists s, s ∈ S /\ (forall s', s' ∈ S -> s_date s' <= s_date s) /\
                asof_close P (s_date s) close
  end.
Proof.
  unfold last_close, merged_rows. cbn [rows]. rewrite last_map.
  destruct (last (sort_rows s_date S)) as [s|] eqn:Hlast; simpl.
  - exists s. split_and!.
    + by apply (elem_of_sort_rows s_date), last_Some_elem_of.
    + intros s' Hs'.
      apply (sorted_by_last_max s_date (sort_rows s_date S)); [apply sort_rows_sorted|done|].
      by apply elem_of_sort_rows.
    + by destruct (joined_row_of P s) as (_ & _ & Hclose).
  - apply last_None in Hlast. pose proof (sort_rows_perm _ s_date S) as Hperm.
    rewrite Hlast in Hperm. by apply Permutation_nil_l in Hperm.
Qed.

(** X12 (the "Latest Close" figure): the [Close] at the last position of the
    merged frame is the price as of the latest sentiment point: the close of
    the latest price at or before that point's date, [nan] when every price is
    later; later prices are not shown.  It is missing only when there is no
    sentiment point at all. *)
Theorem last_close_as_of_latest (S : list SentimentPoint) (P : list PricePoint) :
  exists merged,
    merge S P = Ok merged /\
    match last_close (mkDataFrame ["date"; "polarity"; "Close"] merged) with
    | None => S = []
    | Some close =>
        exists s, s ∈ S /\ (forall s', s' ∈ S -> s_date s' <= s_date s) /\
                  asof_close P (s_date s) close
    end.
Proof.
  exists (merged_rows S P). split; [apply merge_eq|apply last_close_merged_rows].
Qed.

End Metrics.

(** X13 (the recent samples): [tail(n)] keeps the columns and the last [n]
    rows in their order, all of them when the frame has fewer; on a frame in
    date order, as the Scorer returns it, these are the latest rows: no row
    left out is dated after a row that is kept. *)
Theorem df_tail_latest {A} (key : A -> Timestamp) (n : nat) (df : DataFrame A) :
  sorted_by key (rows df) ->
  columns (df_tail n df) = columns df /\
  length (rows (df_tail n df)) = Nat.min n (length (rows df)) /\
  sorted_by key (rows (df_tail n df)) /\
  exists earlier,
    rows df = earlier ++ rows (df_tail n df) /\
    forall x y, x ∈ earlier -> y ∈ rows (df_tail n df) -> key x <= key y.
Proof.
  intros Hsorted. unfold df_tail. cbn [columns rows].
  rewrite <-(take_drop (length (rows df) - n) (rows df)) in Hsorted.
  apply sorted_by_app in Hsorted as (_ & Hkept & Hcross).
  split_and!; try done.
  - rewrite length_drop. lia.
  - exists (take (length (rows df) - n) (rows df)). split; [by rewrite take_drop|].
    intros x y Hx Hy. rewrite Forall_forall in Hcross. specialize (Hcross x Hx).
    rewrite Forall_forall in Hcross. by apply Hcross.
Qed.

Lemma df_tail_latest_witness :
  columns (df_tail 2 (mkDataFrame ["date"] [1; 2; 3])) = columns (mkDataFrame ["date"] [1; 2; 3]) /\
  length (rows (df_tail 2 (mkDataFrame ["date"] [1; 2; 3])))
  = Nat.min 2 (length (rows (mkDataFrame ["date"] [1; 2; 3]))) /\
  sorted_by id (rows (df_tail 2 (mkDataFrame ["date"] [1; 2; 3]))) /\
  exists earlier,
    rows (mkDataFrame ["date"] [1; 2; 3])
    = earlier ++ rows (df_tail 2 (mkDataFrame ["date"] [1; 2; 3])) /\
    forall x y, x ∈ earlier -> y ∈ rows (df_tail 2 (mkDataFrame ["date"] [1; 2; 3])) ->
                id x <= id y.
Proof.
  apply (df_tail_latest id 2 (mkDataFrame ["date"] [1; 2; 3])).
  repeat constructor; simpl; lia.
Defined.

End DisplayFacts.

(** ** The run as a whole *)

Module AppMore.
Import Python Pandas Model Collector Scorer Aligner App Display.
Import PandasFacts ModelFacts AlignerFacts ScorerFacts CollectorFacts AppFacts.
Import AlignerMore DisplayFacts.

Section RunMore.
Context {srt : Sorter} {net : Network} {blob : TextBlob} {dts : Datetimes} {yf : YFinance}.


(** X15 (no subreddit chosen): with no subreddit to search, the run sends no
    request and builds no frame, and ends at the guard on empty data. *)
Theorem run_no_subreddits (crypto_name : string) (num_posts : Z) (period interval : string)
    (w : world) :
  crypto_name ∈ map fst CRYPTO_TICKERS ->
  run crypto_name num_posts [] period interval w = (Ok NoData, w).
Proof.
  intros Hname. unfold run.
  assert (exists ticker, ticker_of CRYPTO_TICKERS crypto_name = Ok ticker) as [ticker ->].
  { induction CRYPTO_TICKERS as [|[k v] table IH]; [by apply elem_of_nil in Hname|].
    simpl. destruct (String.eqb_spec k crypto_name) as [->|Hne]; [by eexists|].
    apply IH. simpl in Hname. apply elem_of_cons in Hname as [->|Hname]; done. }
  reflexivity.
Qed.

(** X16 (no handler): an exception of a stage ends the run with that
    exception, in the world the stage left, and no later stage starts: a
    failed fetch is followed by no scoring, a failed scoring by no download,
    a failed download, once it has gone out, by no merge. *)
Theorem run_stops_at_first_exception (crypto_name : string) (num_posts : Z)
    (subs : list string) (period interval ticker : string) (w : world) :
  ticker_of CRYPTO_TICKERS crypto_name = Ok ticker ->
  (forall e w1,
     fetch_reddit_data ticker subs num_posts w = (Raise e, w1) ->
     run crypto_name num_posts subs period interval w = (Raise e, w1)) /\
  (forall data w1 e w2,
     fetch_reddit_data ticker subs num_posts w = (Ok data, w1) ->
     data <> [] ->
     analyze_sentiments data w1 = (Raise e, w2) ->
     run crypto_name num_posts subs period interval w = (Raise e, w2)) /\
  (forall data w1 sent_df w2 e,
     fetch_reddit_data ticker subs num_posts w = (Ok data, w1) ->
     data <> [] ->
     analyze_sentiments data w1 = (Ok sent_df, w2) ->
     download (downloads w2) (mkDownload (ticker +:+ "-USD") period interval) = Raise e ->
     run crypto_name num_posts subs period interval w
     = (Raise e,
        mkWorld (requests_log w2)
          (downloads w2 ++ [mkDownload (ticker +:+ "-USD") period interval]) (heap w2))).
Proof.
  intros Hticker. split_and!.
  - intros e w1 Hfetch. unfold run. rewrite Hticker, lift_bind.
    by rewrite (Py_bind_raise _ _ _ _ _ Hfetch).
  - intros [|item data] w1 e w2 Hfetch Hne Hscore; [done|].
    rewrite (run_scores_fetched _ _ _ _ _ _ _ _ _ _ Hticker Hfetch).
    by rewrite (Py_bind_raise _ _ _ _ _ Hscore).
  - intros [|item data] w1 sent_df w2 e Hfetch Hne Hscore Hdown; [done|].
    rewrite (run_scores_fetched _ _ _ _ _ _ _ _ _ _ Hticker Hfetch).
    rewrite (Py_bind_ok _ _ _ _ _ Hscore).
    apply Py_bind_raise. rewrite get_price_df_eq. unfold price_download. by rewrite Hdown.
Qed.

(** X17 (a server with nothing to report): when every answer passes and
    brings no item, because its [data] is an empty list or is missing, the run
    sends every planned request, two per subreddit, and then ends at the guard
    on empty data: nothing is scored, downloaded or merged. *)
Theorem run_empty_handed (crypto_name : string) (num_posts : Z) (subs : list string)
    (period interval ticker : string) (w : world) :
  ticker_of CRYPTO_TICKERS crypto_name = Ok ticker ->
  (forall h req, CollectorMore.empty_handed (respond h req)) ->
  run crypto_name num_posts subs period interval w
  = (Ok NoData,
     mkWorld (requests_log w ++ planned_requests ticker subs num_posts) (downloads w) (heap w)).
Proof.
  intros Hticker Hnet. unfold run. rewrite Hticker, lift_bind.
  by rewrite (Py_bind_ok _ _ _ _ _
                (CollectorMore.fetch_reddit_data_empty_handed ticker num_posts subs w Hnet)).
Qed.

End RunMore.


Lemma run_no_subreddits_witness :
  run (net := no_posts) (yf := three_prices) "Solana (SOL)" 150 [] "7d" "1h" empty_world
  = (Ok NoData, empty_world).
Proof.
  apply (run_no_subreddits (net := no_posts) (yf := three_prices)).
  repeat constructor.
Defined.

(** No prices to be had. *)
Definition no_prices : YFinance := fun _ _ => Raise (LibraryError "download").

Lemma run_stops_at_first_exception_witness :
  (forall e w1,
     fetch_reddit_data (net := one_post) "BTC" ["CryptoCurrency"] 150 empty_world
     = (Raise e, w1) ->
     run (net := one_post) (yf := no_prices)
       "Bitcoin (BTC)" 150 ["CryptoCurrency"] "7d" "1h" empty_world
     = (Raise e, w1)) /\
  (forall data w1 e w2,
     fetch_reddit_data (net := one_post) "BTC" ["CryptoCurrency"] 150 empty_world
     = (Ok data, w1) ->
     data <> [] ->
     analyze_sentiments data w1 = (Raise e, w2) ->
     run (net := one_post) (yf := no_prices)
       "Bitcoin (BTC)" 150 ["CryptoCurrency"] "7d" "1h" empty_world
     = (Raise e, w2)) /\
  (forall data w1 sent_df w2 e,
     fetch_reddit_data (net := one_post) "BTC" ["CryptoCurrency"] 150 empty_world
     = (Ok data, w1) ->
     data <> [] ->
     analyze_sentiments data w1 = (Ok sent_df, w2) ->
     download (YFinance := no_prices) (downloads w2) (mkDownload ("BTC" +:+ "-USD") "7d" "1h")
     = Raise e ->
     run (net := one_post) (yf := no_prices)
       "Bitcoin (BTC)" 150 ["CryptoCurrency"] "7d" "1h" empty_world
     = (Raise e,
        mkWorld (requests_log w2)
          (downloads w2 ++ [mkDownload ("BTC" +:+ "-USD") "7d" "1h"]) (heap w2))).
Proof.
  apply (run_stops_at_first_exception (net := one_post) (yf := no_prices)
           "Bitcoin (BTC)" 150 ["CryptoCurrency"] "7d" "1h" "BTC" empty_world).
  reflexivity.
Defined.

(** A server that answers every request with an error message and no [data]. *)
Definition only_detail : Network := fun _ _ =>
  Responds (mkResponse 200 (Some (JObj [("detail", JStr "Not Found")]))).

Lemma run_empty_handed_witness :
  run (net := only_detail) (yf := three_prices)
    "Ethereum (ETH)" 50 ["CryptoCurrency"; "Ethereum"] "7d" "1h" empty_world
  = (Ok NoData,
     mkWorld (requests_log empty_world
              ++ planned_requests "ETH" ["CryptoCurrency"; "Ethereum"] 50)
       (downloads empty_world) (heap empty_world)).
Proof.
  apply (run_empty_handed (net := only_detail) (yf := three_prices)
           "Ethereum (ETH)" 50 ["CryptoCurrency"; "Ethereum"] "7d" "1h" "ETH" empty_world).
  - reflexivity.
  - intros h req. eexists _, _. split_and!; [reflexivity|reflexivity|reflexivity|by left].
Defined.

End AppMore.

(** ** The order of the input rows *)

Module OrderFacts.
Import Python Pandas Model Scorer Aligner PandasFacts ModelFacts AlignerFacts ScorerFacts.

Lemma Forall2_functional {A B} (R : A -> B -> Prop) l m m' :
  (forall a b b', R a b -> R a b' -> b = b') ->
  Forall2 R l m -> Forall2 R l m' -> m = m'.
Proof.
  intros Hfun Hm. revert m'. induction Hm as [|a b l m Hab _ IH]; intros m' Hm'.
  - by apply Forall2_nil_inv_l in Hm'.
  - apply Forall2_cons_inv_l in Hm' as (b' & m'' & Hab' & Hm'' & ->).
    f_equal; [by eapply Hfun|by apply IH].
Qed.

Lemma Forall2_image {A B} (R : A -> B -> Prop) l :
  Forall (fun a => exists b, R a b) l -> exists m, Forall2 R l m.
Proof.
  induction 1 as [|a l [b Hab] _ [m Hm]]; [by exists []|].
  exists (b :: m). by constructor.
Qed.

Lemma Forall2_domain {A B} (R : A -> B -> Prop) l m :
  Forall2 R l m -> Forall (fun a => exists b, R a b) l.
Proof. induction 1; constructor; [by eexists|done]. Qed.

(** A functional relation carries a rearrangement of the one list to a
    rearrangement of the other. *)
Lemma Forall2_perm {A B} (R : A -> B -> Prop) l l' :
  (forall a b b', R a b -> R a b' -> b = b') ->
  Permutation l l' ->
  forall m m', Forall2 R l m -> Forall2 R l' m' -> Permutation m m'.
Proof.
  intros Hfun. induction 1 as [|a l l' _ IH|a1 a2 l|l1 l2 l3 H12 IH12 H23 IH23]; intros m m' Hm Hm'.
  - apply Forall2_nil_inv_l in Hm as ->. by apply Forall2_nil_inv_l in Hm' as ->.
  - apply Forall2_cons_inv_l in Hm as (b & n & Hb & Hn & ->).
    apply Forall2_cons_inv_l in Hm' as (b' & n' & Hb' & Hn' & ->).
    rewrite (Hfun _ _ _ Hb Hb'). constructor. by apply IH.
  - apply Forall2_cons_inv_l in Hm as (b2 & n & Hb2 & Hn & ->).
    apply Forall2_cons_inv_l in Hn as (b1 & n1 & Hb1 & Hn1 & ->).
    apply Forall2_cons_inv_l in Hm' as (b1' & n' & Hb1' & Hn' & ->).
    apply Forall2_cons_inv_l in Hn' as (b2' & n2 & Hb2' & Hn2 & ->).
    rewrite (Hfun _ _ _ Hb1 Hb1'), (Hfun _ _ _ Hb2 Hb2').
    rewrite (Forall2_functional R _ _ _ Hfun Hn1 Hn2). apply perm_swap.
  - assert (exists m2, Forall2 R l2 m2) as [m2 Hm2].
    { apply Forall2_image. rewrite <-H12. by eapply Forall2_domain. }
    etrans; [by apply IH12|by apply IH23].
Qed.

Section Order.
Context {srt : Sorter}.

(** With no two rows of the same date, [sort_values] gives one frame for
    every order of the rows. *)
Lemma sort_rows_order_free {A} (key : A -> Timestamp) l l' :
  Permutation l l' -> l = l' \/ NoDup (map key l) ->
  sort_rows key l = sort_rows key l'.
Proof.
  intros Hperm [->|Hnd]; [done|].
  apply (sorted_by_unique key); try apply sort_rows_sorted.
  - by rewrite (sort_rows_perm _ key l).
  - by rewrite !sort_rows_perm.
Qed.

(** X18 (the order of the rows does not matter): [merge_df] returns the same
    rows for every order of the rows of a frame in which no two rows have the
    same date; the order of rows with equal dates may show in the result. *)
Theorem merge_df_order_free (S S' : list SentimentPoint) (P P' : list PricePoint) :
  Permutation S S' -> S = S' \/ NoDup (map s_date S) ->
  Permutation P P' -> P = P' \/ NoDup (map p_date P) ->
  merge S P = merge S' P'.
Proof.
  intros HS HndS HP HndP. rewrite !merge_eq. unfold merged_rows.
  by rewrite (sort_rows_order_free s_date S S' HS HndS),
             (sort_rows_order_free p_date P P' HP HndP).
Qed.

Context {blob : TextBlob} {dts : Datetimes}.

Lemma scores_dates_NoDup data pts :
  Forall2 scores data pts -> NoDup (map created_utc data) -> NoDup (map s_date pts).
Proof.
  induction 1 as [|entry pt data pts Hsc Hall IH]; [constructor|].
  cbn [map]. rewrite !NoDup_cons. intros [Hnotin Hnd]. split; [|by apply IH].
  intros Hin. apply Hnotin.
  apply list_elem_of_In, in_map_iff in Hin as (pt' & Hdate & Hpt').
  apply list_elem_of_In, list_elem_of_lookup in Hpt' as [i Hi].
  destruct (Forall2_lookup_r _ _ _ _ _ Hall Hi) as (entry' & Hentry' & Hsc').
  destruct Hsc as (txt & n & _ & Hc & ->). destruct Hsc' as (txt' & n' & _ & Hc' & ->).
  simpl in Hdate. assert (n' = n) as -> by lia.
  rewrite Hc, <-Hc'. apply list_elem_of_In, in_map, list_elem_of_In.
  by eapply list_elem_of_lookup_2.
Qed.

(** X19 (the order of the items does not matter): on well-formed items with
    pairwise different timestamps, [analyze_sentiments] returns the same frame
    for every order of the items. *)
Theorem analyze_sentiments_order_free (data data' : list RawItem) (w w' : world) :
  Permutation data data' ->
  data <> [] ->
  Forall well_formed data ->
  NoDup (map created_utc data) ->
  exists df df' w1 w1' frame,
    analyze_sentiments data w = (Ok df, w1) /\
    analyze_sentiments data' w' = (Ok df', w1') /\
    heap w1 !! df = Some (SentDF frame) /\
    heap w1' !! df' = Some (SentDF frame) /\
    length (rows frame) = length data.
Proof.
  intros Hperm Hne Hwf Hnd.
  assert (Forall well_formed data') as Hwf' by by rewrite <-Hperm.
  destruct (well_formed_scored data Hwf) as (pts & Hpts & Hsc).
  destruct (well_formed_scored data' Hwf') as (pts' & Hpts' & Hsc').
  assert (Permutation pts pts') as Hpp.
  { apply (Forall2_perm (fun entry pt => score_entry entry = Ok pt) data data'); try done.
    intros a b b' Hb Hb'. congruence. }
  destruct (analyze_sentiments_returns data pts w Hpts) as (res & w1 & Hrun & _ & Hd).
  destruct (analyze_sentiments_returns data' pts' w' Hpts') as (res' & w1' & Hrun' & _ & Hd').
  destruct pts as [|pt pts]; [apply Forall2_nil_inv_r in Hpts; congruence|].
  destruct pts' as [|pt' pts']; [by apply Permutation_nil_r in Hpp|].
  cbn in Hd, Hd'. destruct Hd as (df & -> & Hdf). destruct Hd' as (df' & -> & Hdf').
  exists df, df', w1, w1', (mkDataFrame ["date"; "polarity"] (sort_rows s_date (pt :: pts))).
  split_and!; try done.
  - rewrite Hdf'. do 3 f_equal. symmetry. apply sort_rows_order_free; [done|].
    right. by apply (scores_dates_NoDup data).
  - cbn [rows]. rewrite (Permutation_length (sort_rows_perm _ s_date _)).
    symmetry. by eapply Forall2_length.
Qed.

End Order.

Lemma merge_df_order_free_witness :
  merge [mkSentimentPoint 25 0.5; mkSentimentPoint 15 0]
        [mkPricePoint 20 200; mkPricePoint 10 100]
  = merge [mkSentimentPoint 15 0; mkSentimentPoint 25 0.5]
          [mkPricePoint 10 100; mkPricePoint 20 200].
Proof.
  apply merge_df_order_free.
  - apply perm_swap.
  - right. repeat constructor; rewrite ?elem_of_cons, ?elem_of_nil; intros Hin;
      repeat destruct Hin as [Hin|Hin]; done.
  - apply perm_swap.
  - right. repeat constructor; rewrite ?elem_of_cons, ?elem_of_nil; intros Hin;
      repeat destruct Hin as [Hin|Hin]; done.
Defined.

Lemma analyze_sentiments_order_free_witness :
  exists df df' w1 w1' frame,
    analyze_sentiments sample_data empty_world = (Ok df, w1) /\
    analyze_sentiments (rev sample_data) empty_world = (Ok df', w1') /\
    heap w1 !! df = Some (SentDF frame) /\
    heap w1' !! df' = Some (SentDF frame) /\
    length (rows frame) = length sample_data.
Proof.
  apply analyze_sentiments_order_free.
  - apply perm_swap.
  - done.
  - repeat constructor; eexists _, _; by split_and!.
  - repeat constructor; rewrite ?elem_of_cons, ?elem_of_nil; intros Hin;
      repeat destruct Hin as [Hin|Hin]; done.
Defined.

End OrderFacts.
